(** * d3-demo: the camera and tour engine of [src/app/page.tsx]

    A shallow embedding of the effect body of the [Home] component: the
    name index [byName], the camera transform [transformFor], [highlight],
    [drawLink], [focus] and the demo tour, with the properties of the
    specification stated over them.

    JavaScript numbers are IEEE 754 binary64 values; they are embedded as
    Rocq's primitive floats, which are the same format with the same
    round-to-nearest-even arithmetic, so [960 / 0] is [infinity] here as in
    the browser.  Universal statements about the arithmetic are proved through
    the specification of the primitive operations ([FloatAxioms],
    [SpecFloat]). *)

From Stdlib Require Import ZArith Floats Bool List Lia.
From stdpp Require Import gmap strings.

#[local] Set Warnings "-inexact-float".
#[local] Open Scope Z_scope.

(** ** JavaScript values *)

Module JS.

Definition number := float.

(** [Math.min(a, b)]: NaN if either argument is NaN, and [-0] is smaller
    than [+0]. *)
Definition Math_min (a b : number) : number :=
  if (is_nan a || is_nan b)%bool then nan
  else if (a <? b)%float then a
  else if (b <? a)%float then b
  else if get_sign a then a else b.

(** SameValueZero: equal as numbers, where NaN equals NaN and [+0] equals
    [-0]; the two zeros print alike in an SVG transform string. *)
Definition same_value_zero (a b : number) : Prop :=
  a = b \/ (a =? b)%float = true.

(** Values a JSON document can hold at [properties.name], and [undefined]
    for an absent key; [object] stands for any array or object. *)
Inductive value :=
| undefined
| null
| boolean (b : bool)
| num (n : number)
| object
| str (s : string).

(** [v === activeName] for [activeName : string | null]. *)
Definition strict_eq_name (v : value) (activeName : option string) : bool :=
  match v, activeName with
  | str s, Some a => String.eqb s a
  | null, None => true
  | _, _ => false
  end.

(** A call either returns or throws. *)
Inductive completion (E A : Type) :=
| Return (a : A)
| Throw (e : E).
Arguments Return {E A} a.
Arguments Throw {E A} e.

Definition bind {E A B} (c : completion E A) (f : A -> completion E B)
  : completion E B :=
  match c with
  | Return a => f a
  | Throw e => Throw e
  end.

End JS.

Abbreviation number := JS.number.

(** ** d3-zoom's [Transform]

    The library is not part of the repository; these definitions follow its
    [transform.js]: [identity] is [new Transform(1, 0, 0)], and [translate]
    and [scale] compose on the right. *)

Module d3.

Record Transform := { k : number; x : number; y : number }.

Definition zoomIdentity : Transform :=
  {| k := 1%float; x := 0%float; y := 0%float |}.

(** [x === 0 & y === 0 ? this
     : new Transform(this.k, this.x + this.k * x, this.y + this.k * y)] *)
Definition translate (t : Transform) (x0 y0 : number) : Transform :=
  if ((x0 =? 0)%float && (y0 =? 0)%float)%bool then t
  else {| k := k t;
          x := (x t + k t * x0)%float;
          y := (y t + k t * y0)%float |}.

(** [k === 1 ? this : new Transform(this.k * k, this.x, this.y)] *)
Definition scale (t : Transform) (k0 : number) : Transform :=
  if (k0 =? 1)%float then t
  else {| k := (k t * k0)%float; x := x t; y := y t |}.

End d3.

(** ** The module constants *)

Definition width : number := 960%float.
Definition height : number := 600%float.

(** The default of [transformFor]'s [padding] parameter. *)
Definition default_padding : number := 0.9%float.

Definition fill_default : string := "#e5e7eb".
Definition fill_highlight : string := "#93c5fd".

Definition Point : Type := number * number.
Definition Bounds : Type := Point * Point.

(** ** The effect body *)

Section Map.

(** The GeoJSON geometry of a feature is only ever handed to d3. *)
Variable Geometry : Type.

Record ProvinceProperties := { name : JS.value }.

(** A feature; [properties] may be [null] in GeoJSON. *)
Record ProvinceFeature := {
  properties : option ProvinceProperties;
  geometry : Geometry
}.

(** [f.properties?.name] *)
Definition properties_name (f : ProvinceFeature) : JS.value :=
  match properties f with
  | Some p => name p
  | None => JS.undefined
  end.

(** [d3.geoPath(projection)]: the outline ([path(d)], which may be [null]),
    the screen bounding box and the screen centroid of a feature. *)
Record GeoPath := {
  path : ProvinceFeature -> option string;
  path_bounds : ProvinceFeature -> Bounds;
  path_centroid : ProvinceFeature -> Point
}.

(** The body of the loop of step 7:
    [const n = f.properties?.name; if (typeof n === "string") byName.set(n, f)] *)
Definition byName_set (m : gmap string ProvinceFeature) (f : ProvinceFeature)
  : gmap string ProvinceFeature :=
  match properties_name f with
  | JS.str n => <[n := f]> m
  | _ => m
  end.

(** The index of step 7: a new [Map], then the features in order. *)
Definition byName (features : list ProvinceFeature)
  : gmap string ProvinceFeature :=
  fold_left byName_set features ∅.

(** One [<path>] of the map layer with the datum bound to it. *)
Record ProvincePath := {
  datum : ProvinceFeature;
  attr_d : string;
  attr_fill : string
}.

(** The children of the links layer. *)
Inductive LinkElement :=
| LinkLine (a b : Point) (durationMs : number)
| LinkDot (c : Point).

(** What happens to the camera, in order: an attribute set at once, an
    awaited timer, an awaited transition of the given duration. *)
Inductive Event :=
| CameraSet (t : d3.Transform)
| Delay (ms : number)
| CameraTransition (durationMs : number) (t : d3.Transform).

(** The SVG under the container: the map layer, the links layer, the
    [transform] attribute of the scene group, and the timeline so far. *)
Record Scene := {
  provinces : list ProvincePath;
  links : list LinkElement;
  transform : option d3.Transform;
  timeline : list Event
}.

(** The regions drawn in the highlight fill, and the regions whose name is
    [activeName]. *)
Definition is_highlighted (p : ProvincePath) : bool :=
  String.eqb (attr_fill p) fill_highlight.

Definition highlighted (s : Scene) : list ProvincePath :=
  List.filter is_highlighted (provinces s).

Definition named (activeName : option string) (s : Scene)
  : list ProvincePath :=
  List.filter
    (fun p => JS.strict_eq_name (properties_name (datum p)) activeName)
    (provinces s).

Section Camera.

Variables W H : number.
Variable geo : GeoPath.

(** [transformFor(f, padding)] for a viewport of [W] by [H]. *)
Definition transformFor (f : ProvinceFeature) (padding : number)
  : d3.Transform :=
  let '((x0, y0), (x1, y1)) := path_bounds geo f in
  let dx := (x1 - x0)%float in
  let dy := (y1 - y0)%float in
  let k := (JS.Math_min (W / dx) (H / dy) * padding)%float in
  let tx := (W / 2 - ((x0 + x1) / 2) * k)%float in
  let ty := (H / 2 - ((y0 + y1) / 2) * k)%float in
  d3.scale (d3.translate d3.zoomIdentity tx ty) k.

End Camera.

Section Effect.

Variable geo : GeoPath.
Variable features : list ProvinceFeature.

(** Step 6: one path per feature, in data order, all in the default fill. *)
Definition initial_scene : Scene :=
  {| provinces :=
       map (fun f => {| datum := f;
                        attr_d := default EmptyString (path geo f);
                        attr_fill := fill_default |})
           features;
     links := [];
     transform := None;
     timeline := [] |}.

(** [highlight(activeName)] *)
Definition highlight (activeName : option string) (s : Scene) : Scene :=
  {| provinces :=
       map (fun p => {| datum := datum p;
                        attr_d := attr_d p;
                        attr_fill :=
                          if JS.strict_eq_name (properties_name (datum p))
                                               activeName
                          then fill_highlight else fill_default |})
           (provinces s);
     links := links s;
     transform := transform s;
     timeline := timeline s |}.

(** [centroid(f)] *)
Definition centroid (f : ProvinceFeature) : Point :=
  let c := path_centroid geo f in (fst c, snd c).

(** [drawLink(from, to, durationMs)]: the line [M a L b], whose reveal over
    [durationMs] is started and not awaited, and the two end dots.  The node
    of a path just appended is never [null], so the early return is not
    taken. *)
Definition drawLink (from to : ProvinceFeature) (durationMs : number)
  (s : Scene) : Scene :=
  let a := centroid from in
  let b := centroid to in
  {| provinces := provinces s;
     links := links s ++ [LinkLine a b durationMs; LinkDot a; LinkDot b];
     transform := transform s;
     timeline := timeline s |}.

(** [scene.attr("transform", t.toString())] *)
Definition set_transform (t : d3.Transform) (s : Scene) : Scene :=
  {| provinces := provinces s;
     links := links s;
     transform := Some t;
     timeline := timeline s ++ [CameraSet t] |}.

(** [await delay(ms)] *)
Definition delay (ms : number) (s : Scene) : Scene :=
  {| provinces := provinces s;
     links := links s;
     transform := transform s;
     timeline := timeline s ++ [Delay ms] |}.

(** [await focus(name, durationMs)]: the scene once the transition has
    ended.  Nothing in the code interrupts a transition, so [tr.end()]
    resolves. *)
Definition focus (name : string) (durationMs : number) (s : Scene) : Scene :=
  match byName features !! name with
  | None => s
  | Some feature =>
      let s := highlight (Some name) s in
      let t := transformFor width height geo feature default_padding in
      {| provinces := provinces s;
         links := links s;
         transform := Some t;
         timeline := timeline s ++ [CameraTransition durationMs t] |}
  end.

(** Step 13, the demo tour. *)
Definition tour (s : Scene) : Scene :=
  match byName features !! "江西省", byName features !! "上海市" with
  | Some jiangxi, Some shanghai =>
      let s := highlight (Some "江西省") s in
      let s :=
        set_transform (transformFor width height geo jiangxi default_padding) s
      in
      let s := delay 600%float s in
      let moveMs := 1600%float in
      let s := drawLink jiangxi shanghai moveMs s in
      focus "上海市" moveMs s
  | _, _ => s
  end.

(** The first frame of the tour: the scene when the tour, its guard passed,
    reaches [await delay(600)]. *)
Definition tour_first_frame (jiangxi : ProvinceFeature) (s : Scene) : Scene :=
  set_transform (transformFor width height geo jiangxi default_padding)
    (highlight (Some "江西省") s).

End Effect.

(** The effect of [useEffect] on a mounted container, for the collection
    [china.features ?? []]: fit the projection, draw the provinces and run
    the tour.  [fitSize] and [geoPath] are d3's; the code wraps neither in a
    check of its own, so it throws what they throw. *)
Definition mount {Exn Projection : Type}
  (fitSize : number * number -> list ProvinceFeature ->
             JS.completion Exn Projection)
  (geoPath : Projection -> GeoPath)
  (china : list ProvinceFeature) : JS.completion Exn Scene :=
  JS.bind (fitSize (width, height) china) (fun projection =>
  let geo := geoPath projection in
  JS.Return (tour geo china (initial_scene geo china))).

End Map.

Arguments properties {Geometry}.
Arguments geometry {Geometry}.
Arguments properties_name {Geometry}.
Arguments path {Geometry}.
Arguments path_bounds {Geometry}.
Arguments path_centroid {Geometry}.
Arguments byName_set {Geometry}.
Arguments byName {Geometry}.
Arguments is_highlighted {Geometry}.
Arguments highlighted {Geometry}.
Arguments named {Geometry}.
Arguments datum {Geometry}.
Arguments attr_d {Geometry}.
Arguments attr_fill {Geometry}.
Arguments provinces {Geometry}.
Arguments links {Geometry}.
Arguments transform {Geometry}.
Arguments timeline {Geometry}.
Arguments transformFor {Geometry}.
Arguments initial_scene {Geometry}.
Arguments highlight {Geometry}.
Arguments centroid {Geometry}.
Arguments drawLink {Geometry}.
Arguments set_transform {Geometry}.
Arguments delay {Geometry}.
Arguments focus {Geometry}.
Arguments tour {Geometry}.
Arguments tour_first_frame {Geometry}.
Arguments mount {Geometry Exn Projection}.

(** ** A small map to run the code on

    A stand-in for d3's path generator: the geometry of a fixture is its
    projected bounding box, and its centroid is the centre of the box. *)

Module Fixture.

Definition geo : GeoPath Bounds :=
  {| path := fun _ => Some "M0,0Z";
     path_bounds := fun f => geometry f;
     path_centroid := fun f =>
       let '((x0, y0), (x1, y1)) := geometry f in
       (((x0 + x1) / 2)%float, ((y0 + y1) / 2)%float) |}.

Definition province (n : JS.value) (b : Bounds) : ProvinceFeature Bounds :=
  {| properties := Some {| name := n |}; geometry := b |}.

Definition jiangxi : ProvinceFeature Bounds :=
  province (JS.str "江西省") ((560, 380), (620, 460))%float.

Definition shanghai : ProvinceFeature Bounds :=
  province (JS.str "上海市") ((690, 350), (698, 360))%float.

(** A second feature that also calls itself [江西省]. *)
Definition jiangxi' : ProvinceFeature Bounds :=
  province (JS.str "江西省") ((100, 100), (200, 200))%float.

(** A feature named by the empty string, one with a number for a name and
    one with no properties at all. *)
Definition unnamed : ProvinceFeature Bounds :=
  province (JS.str "") ((10, 10), (20, 20))%float.
Definition numbered : ProvinceFeature Bounds :=
  province (JS.num 36%float) ((30, 30), (40, 40))%float.
Definition bare : ProvinceFeature Bounds :=
  {| properties := None; geometry := ((50, 50), (60, 60))%float |}.

(** A point feature, whose bounding box has no width and no height, and a
    vertical segment, whose box has no width. *)
Definition dot : ProvinceFeature Bounds :=
  province (JS.str "dot") ((100, 100), (100, 100))%float.
Definition segment : ProvinceFeature Bounds :=
  province (JS.str "segment") ((100, 100), (100, 100.5))%float.

(** A feature without a point: the bounds d3 gives it are those of the empty
    box. *)
Definition hollow : ProvinceFeature Bounds :=
  province (JS.str "hollow")
    ((infinity, infinity), (neg_infinity, neg_infinity)).

(** Modelled from the spec: the error of section 7 that fitting an empty
    collection is said to raise; the source declares no error type. *)
Inductive Exn := EmptyInputError.

(** d3's [fitSize] returns a projection for every collection. *)
Definition fitSize (size : number * number)
  (china : list (ProvinceFeature Bounds)) : JS.completion Exn unit :=
  JS.Return tt.

Definition geoPath (projection : unit) : GeoPath Bounds := geo.

End Fixture.

(** ** Rounding, as the proofs below read it *)

(** After [n] shifts of [m]: the quotient, and twice the remainder split into
    the round bit and the rest below it. *)
Definition shifted (m : Z) (n : nat) (r : shr_record) : Prop :=
  shr_m r = m / 2 ^ Z.of_nat n /\
  exists t, 0 <= t < 2 ^ Z.of_nat n /\
    2 * (m mod 2 ^ Z.of_nat n) = (if shr_r r then 2 ^ Z.of_nat n else 0) + t /\
    (shr_s r = true <-> 0 < t).

(** [m / 2 ^ n] rounded to the nearest integer, ties to even. *)
Definition rne (m n : Z) : Z :=
  let q := m / 2 ^ n in
  match 2 * (m mod 2 ^ n) ?= 2 ^ n with
  | Lt => q
  | Eq => if Z.even q then q else q + 1
  | Gt => q + 1
  end.

(** The binary64 number of mantissa [r <= 2 ^ 53] and exponent [e]. *)
Definition rounded (sx : bool) (r e : Z) : spec_float :=
  if r =? 0 then S754_zero sx
  else if r <? 2 ^ 53 then
    if e <=? 971 then S754_finite sx (Z.to_pos r) e else S754_infinity sx
  else
    if e + 1 <=? 971 then S754_finite sx (2 ^ 52)%positive (e + 1)
    else S754_infinity sx.

(** * Binary64 arithmetic

    What [SpecFloat] says of the operations the camera uses: the shift that
    rounds a product, and from it the facts about [1 * a], [0 + a], [a - a],
    division by zero and scaling by 0.5 and 0.9. *)

(** [iter_pos] counts in unary as well. *)
Lemma iter_pos_nat {A} (f : A -> A) (p : positive) (a : A) :
  SpecFloat.iter_pos f p a = Nat.iter (Pos.to_nat p) f a.
Proof.
  revert a; induction p as [p IH | p IH |]; intros a; cbn [SpecFloat.iter_pos].
  - rewrite !IH, Pos2Nat.inj_xI.
    replace (S (2 * Pos.to_nat p))%nat
      with (Pos.to_nat p + S (Pos.to_nat p))%nat by lia.
    rewrite Nat.iter_add, Nat.iter_succ_r. reflexivity.
  - rewrite !IH, Pos2Nat.inj_xO.
    replace (2 * Pos.to_nat p)%nat
      with (Pos.to_nat p + Pos.to_nat p)%nat by lia.
    rewrite Nat.iter_add. reflexivity.
  - reflexivity.
Qed.

(** One shift: halve, keep the bit shifted out, remember the older ones. *)
Lemma shr_1_m (r : shr_record) :
  0 <= shr_m r ->
  shr_m (shr_1 r) = shr_m r / 2 /\ shr_r (shr_1 r) = Z.odd (shr_m r)
  /\ shr_s (shr_1 r) = (shr_r r || shr_s r)%bool.
Proof.
  destruct r as [m r s]; simpl. intros Hm.
  destruct m as [| [p | p |] |]; simpl; try lia; repeat split; try reflexivity.
  - rewrite Pos2Z.inj_xI. apply Z.div_unique with (r := 1); lia.
  - rewrite Pos2Z.inj_xO. apply Z.div_unique with (r := 0); lia.
Qed.

(** [n] shifts of an exact mantissa. *)
Lemma shifted_iter (m : Z) (n : nat) :
  0 <= m ->
  shifted m n (Nat.iter n shr_1 {| shr_m := m; shr_r := false; shr_s := false |}).
Proof.
  intros Hm. induction n as [| n IH].
  - simpl. split; [now rewrite Z.div_1_r |].
    exists 0. rewrite Z.mod_1_r. simpl. repeat split; try lia; discriminate.
  - rewrite Nat.iter_succ.
    set (r := Nat.iter n shr_1 _) in *.
    destruct IH as [Hq (t & Ht & Hrem & Hs)]. cbv zeta.
    assert (Hpow : 0 < 2 ^ Z.of_nat n) by (apply Z.pow_pos_nonneg; lia).
    assert (Hq0 : 0 <= shr_m r) by (rewrite Hq; apply Z.div_pos; lia).
    destruct (shr_1_m r Hq0) as (Hm' & Hr' & Hs').
    unfold shifted. rewrite Nat2Z.inj_succ, Z.pow_succ_r by lia.
    split.
    + rewrite Hm', Hq, Z.div_div by lia. f_equal. lia.
    + exists ((if shr_r r then 2 ^ Z.of_nat n else 0) + t).
      rewrite Hr', Hs'.
      assert (Hmod : m mod (2 * 2 ^ Z.of_nat n)
                     = m mod 2 ^ Z.of_nat n + 2 ^ Z.of_nat n * ((m / 2 ^ Z.of_nat n) mod 2)).
      { rewrite (Z.mul_comm 2). apply Z.rem_mul_r; lia. }
      rewrite Hmod, <- Hq, Zmod_odd.
      destruct (shr_r r), (Z.odd (shr_m r)); cbn [orb];
        (split; [lia | split; [lia |]]);
        first [split; [lia | reflexivity] | rewrite Hs; lia].
Qed.

(** Rounding the shifted record to nearest-even is [rne]. *)
Lemma rne_shifted (m : Z) (n : nat) (r : shr_record) :
  shifted m n r ->
  round_nearest_even (shr_m r) (loc_of_shr_record r) = rne m (Z.of_nat n).
Proof.
  intros [Hq (t & Ht & Hrem & Hs)]. unfold rne. rewrite <- Hq.
  assert (Hsticky : if shr_s r then 0 < t else t = 0).
  { destruct (shr_s r); [apply Hs; reflexivity |].
    destruct (Z.eq_dec t 0) as [| Hne]; [assumption | exfalso].
    assert (false = true) by (apply Hs; lia). discriminate. }
  destruct r as [q [|] [|]];
    cbn [shr_m shr_r shr_s loc_of_shr_record round_nearest_even] in *;
    destruct (Z.compare_spec (2 * (m mod 2 ^ Z.of_nat n)) (2 ^ Z.of_nat n));
    first [reflexivity | lia].
Qed.

(** A positive number of [d] binary digits lies in [2^(d-1), 2^d). *)
Lemma digits2_pos_bounds (p : positive) :
  2 ^ (Z.pos (digits2_pos p) - 1) <= Z.pos p < 2 ^ Z.pos (digits2_pos p).
Proof.
  induction p as [p IH | p IH |]; cbn [digits2_pos].
  - rewrite Pos2Z.inj_succ, (Pos2Z.inj_xI p).
    replace (Z.succ (Z.pos (digits2_pos p)) - 1)
      with (Z.succ (Z.pos (digits2_pos p) - 1)) by lia.
    rewrite !Z.pow_succ_r by lia. lia.
  - rewrite Pos2Z.inj_succ, (Pos2Z.inj_xO p).
    replace (Z.succ (Z.pos (digits2_pos p)) - 1)
      with (Z.succ (Z.pos (digits2_pos p) - 1)) by lia.
    rewrite !Z.pow_succ_r by lia. lia.
  - simpl. lia.
Qed.

Lemma digits2_pos_unique (p : positive) (d : Z) :
  2 ^ (d - 1) <= Z.pos p < 2 ^ d -> Z.pos (digits2_pos p) = d.
Proof.
  intros [Hlo Hhi]. pose proof (digits2_pos_bounds p) as [Hlo' Hhi'].
  assert (0 < d).
  { destruct (Z_lt_le_dec 0 d); [assumption |].
    destruct (Z.eq_dec d 0) as [-> |]; [simpl in Hhi; lia |].
    rewrite Z.pow_neg_r in Hhi by lia. lia. }
  destruct (Z_lt_le_dec (Z.pos (digits2_pos p)) d).
  - assert (2 ^ Z.pos (digits2_pos p) <= 2 ^ (d - 1)) by (apply Z.pow_le_mono_r; lia). lia.
  - destruct (Z_le_lt_eq_dec _ _ l); [| lia].
    assert (2 ^ d <= 2 ^ (Z.pos (digits2_pos p) - 1)) by (apply Z.pow_le_mono_r; lia). lia.
Qed.

Lemma rne_0 (m : Z) : rne m 0 = m.
Proof. unfold rne. simpl. rewrite Z.mod_1_r, Z.div_1_r. reflexivity. Qed.

Lemma rne_bounds (m n : Z) :
  0 <= m -> 0 <= n -> m / 2 ^ n <= rne m n <= m / 2 ^ n + 1.
Proof. intros. unfold rne. destruct (_ ?= _); [destruct (Z.even _) | |]; lia. Qed.

(** Rounding an exact product [mx * 2^ex] to binary64: shift down to the
    exponent the format gives its magnitude, round to nearest-even, and
    renormalise if the mantissa reached [2^53]. *)
Lemma round_exact_spec (sx : bool) (mx : positive) (ex : Z) :
  let e' := fexp prec emax (Z.pos (digits2_pos mx) + ex) in
  ex <= e' ->
  binary_round_aux prec emax sx (Z.pos mx) ex loc_Exact =
    rounded sx (rne (Z.pos mx) (e' - ex)) e'.
Proof.
  intros e' He. set (r := rne (Z.pos mx) (e' - ex)). unfold rounded.
  pose proof (digits2_pos_bounds mx) as [_ Hmx].
  assert (He' : -1074 <= e' /\ Z.pos (digits2_pos mx) + ex - 53 <= e').
  { unfold e', fexp, emin, emax, prec. lia. }
  assert (Hr : 0 <= r <= 2 ^ 53).
  { pose proof (rne_bounds (Z.pos mx) (e' - ex)) as Hb.
    assert (0 <= Z.pos mx / 2 ^ (e' - ex)) by (apply Z.div_pos; [lia | apply Z.pow_pos_nonneg; lia]).
    assert (Z.pos mx / 2 ^ (e' - ex) < 2 ^ 53).
    { apply Z.div_lt_upper_bound; [apply Z.pow_pos_nonneg; lia |].
      rewrite <- Z.pow_add_r by lia.
      eapply Z.lt_le_trans; [exact Hmx | apply Z.pow_le_mono_r; lia]. }
    fold r in Hb. lia. }
  assert (Hfirst : shr_fexp prec emax (Z.pos mx) ex loc_Exact
                   = (fst (shr_fexp prec emax (Z.pos mx) ex loc_Exact), e')
                   /\ round_nearest_even (shr_m (fst (shr_fexp prec emax (Z.pos mx) ex loc_Exact)))
                        (loc_of_shr_record (fst (shr_fexp prec emax (Z.pos mx) ex loc_Exact))) = r).
  { unfold shr_fexp. cbn [Zdigits2 shr_record_of_loc]. fold e'. unfold r.
    destruct (e' - ex) as [| p | p] eqn:Hn; try lia.
    - cbn [shr fst shr_m loc_of_shr_record round_nearest_even]. rewrite rne_0.
      split; [f_equal; lia | reflexivity].
    - cbn [shr fst]. split; [f_equal; lia |].
      rewrite iter_pos_nat, (rne_shifted (Z.pos mx) (Pos.to_nat p)), positive_nat_Z; [reflexivity |].
      apply shifted_iter. lia. }
  destruct Hfirst as [Hfst Hrne].
  unfold binary_round_aux. rewrite Hfst, Hrne. clear Hfst Hrne.
  destruct (Z.eqb_spec r 0) as [Hr0 | Hr0].
  - rewrite Hr0. unfold shr_fexp. cbn [Zdigits2 shr_record_of_loc].
    destruct (fexp prec emax (0 + e') - e') eqn:Hn; [reflexivity | | reflexivity].
    unfold fexp, emin, emax, prec in Hn. lia.
  - destruct (Z.ltb_spec r (2 ^ 53)) as [Hlt | Hge].
    + destruct r as [| pr | pr] eqn:Hrr; try lia.
      assert (Z.pos (digits2_pos pr) <= 53).
      { pose proof (digits2_pos_bounds pr) as [Hlo _].
        destruct (Z_le_gt_dec (Z.pos (digits2_pos pr)) 53); [assumption |].
        assert (2 ^ 53 <= 2 ^ (Z.pos (digits2_pos pr) - 1)) by (apply Z.pow_le_mono_r; lia). lia. }
      unfold shr_fexp. cbn [Zdigits2 shr_record_of_loc].
      destruct (fexp prec emax (Z.pos (digits2_pos pr) + e') - e') eqn:Hn.
      all: try (cbn [shr shr_m]; reflexivity).
      unfold fexp, emin, emax, prec in Hn. lia.
    + assert (Hr53 : r = 9007199254740992).
      { change (2 ^ 53) with 9007199254740992 in Hr, Hge. lia. }
      rewrite Hr53. unfold shr_fexp. cbn [Zdigits2 shr_record_of_loc].
      change (Z.pos (digits2_pos 9007199254740992)) with 54.
      replace (fexp prec emax (54 + e') - e') with 1
        by (unfold fexp, emin, emax, prec; lia).
      reflexivity.
Qed.

(** The mantissa and exponent of a finite float are canonical. *)
Lemma finite_valid (a : float) (s : bool) (m : positive) (e : Z) :
  Prim2SF a = S754_finite s m e ->
  fexp prec emax (Z.pos (digits2_pos m) + e) = e /\ e <= 971.
Proof.
  intros Ha. pose proof (Prim2SF_valid a) as Hv. rewrite Ha in Hv.
  cbn [valid_binary] in Hv. unfold bounded, canonical_mantissa in Hv.
  apply andb_prop in Hv as [Hc Hb].
  apply Z.eqb_eq in Hc. apply Z.leb_le in Hb. unfold emax, prec in Hb. split; [assumption | lia].
Qed.

Lemma rne_exact (m n : Z) : 0 < m -> 0 <= n -> rne (2 ^ n * m) n = m.
Proof.
  intros Hm Hn. unfold rne.
  assert (0 < 2 ^ n) by (apply Z.pow_pos_nonneg; lia).
  rewrite (Z.mul_comm (2 ^ n)), Z.mod_mul, Z.div_mul by lia.
  destruct (Z.compare_spec (2 * 0) (2 ^ n)); [lia | reflexivity | lia].
Qed.

(** Multiplying by 1 is exact, for every float. *)
Lemma float_mul_1_l (a : float) : (1 * a)%float = a.
Proof.
  apply Prim2SF_inj. rewrite FloatAxioms.mul_spec.
  change (Prim2SF 1) with (S754_finite false 4503599627370496 (-52)).
  destruct (Prim2SF a) as [s | s | | s m e] eqn:Ha; try reflexivity.
  destruct (finite_valid a s m e Ha) as [Hc He].
  pose proof (digits2_pos_bounds m) as [Hlo Hhi].
  cbn [SF64mul SFmul xorb].
  assert (Hd : Z.pos (digits2_pos (4503599627370496 * m)) = Z.pos (digits2_pos m) + 52).
  { apply digits2_pos_unique. rewrite Pos2Z.inj_mul.
    replace (Z.pos (digits2_pos m) + 52 - 1) with (52 + (Z.pos (digits2_pos m) - 1)) by lia.
    rewrite (Z.add_comm _ 52), !Z.pow_add_r by lia.
    change (2 ^ 52) with 4503599627370496. lia. }
  rewrite round_exact_spec; rewrite Hd;
    replace (Z.pos (digits2_pos m) + 52 + (-52 + e)) with (Z.pos (digits2_pos m) + e) by lia;
    rewrite Hc; [| lia].
  replace (e - (-52 + e)) with 52 by lia.
  rewrite Pos2Z.inj_mul. change (Z.pos 4503599627370496) with (2 ^ 52).
  rewrite rne_exact by lia. unfold rounded.
  assert (Hm53 : Z.pos m < 2 ^ 53).
  { eapply Z.lt_le_trans; [exact Hhi |]. apply Z.pow_le_mono_r; [lia |].
    unfold fexp, emin, emax, prec in Hc. lia. }
  cbn [Z.eqb]. apply Z.ltb_lt in Hm53. rewrite Hm53.
  apply Z.leb_le in He. rewrite He. reflexivity.
Qed.

(** Only 1 compares equal to 1. *)
Lemma float_eqb_1_eq (a : float) : (a =? 1)%float = true -> a = 1%float.
Proof.
  intros H. apply Prim2SF_inj. rewrite FloatAxioms.eqb_spec in H.
  change (Prim2SF 1) with (S754_finite false 4503599627370496 (-52)) in *.
  unfold SFeqb in H.
  destruct (Prim2SF a) as [[|] | [|] | | [|] m e]; cbn [SFcompare] in H;
    try discriminate H.
  destruct (Z.compare_spec e (-52)) as [He | He | He]; try discriminate H.
  rewrite Pos.compare_cont_spec in H. cbn [Pos.switch_Eq] in H.
  destruct (Pos.compare_spec m 4503599627370496) as [Hm | Hm | Hm];
    try discriminate H.
  subst e m. reflexivity.
Qed.

(** Adding to [+0] is the identity, except that it turns [-0] into [+0]. *)
Lemma float_add_0_l (a : float) :
  (0 + a)%float = a \/ ((0 + a)%float = 0%float /\ a = (-0)%float).
Proof.
  destruct (Prim2SF a) as [[|] | s | | s m e] eqn:Ha.
  - right. split; apply Prim2SF_inj; rewrite ?FloatAxioms.add_spec, Ha; reflexivity.
  - left. apply Prim2SF_inj; rewrite FloatAxioms.add_spec, Ha; reflexivity.
  - left. apply Prim2SF_inj; rewrite FloatAxioms.add_spec, Ha; reflexivity.
  - left. apply Prim2SF_inj; rewrite FloatAxioms.add_spec, Ha; reflexivity.
  - left. apply Prim2SF_inj; rewrite FloatAxioms.add_spec, Ha; reflexivity.
Qed.

Lemma pos_spec (a : float) :
  (0 <? a)%float = true ->
  Prim2SF a = S754_infinity false \/ exists m e, Prim2SF a = S754_finite false m e.
Proof.
  rewrite FloatAxioms.ltb_spec. change (Prim2SF 0) with (S754_zero false).
  unfold SFltb.
  destruct (Prim2SF a) as [[|] | [|] | | [|] m e]; cbn; try discriminate; eauto.
Qed.

Lemma pos_finite_spec (a : float) :
  (0 <? a)%float = true -> (a <? infinity)%float = true ->
  exists m e, Prim2SF a = S754_finite false m e.
Proof.
  intros H0 Hi. destruct (pos_spec a H0) as [Ha | Ha]; [| exact Ha].
  rewrite FloatAxioms.ltb_spec, Ha in Hi. discriminate Hi.
Qed.

Lemma finite_spec (a : float) :
  is_finite a = true ->
  (exists s, Prim2SF a = S754_zero s) \/ exists s m e, Prim2SF a = S754_finite s m e.
Proof.
  unfold is_finite, is_nan, is_infinity.
  rewrite !FloatAxioms.eqb_spec, FloatAxioms.abs_spec.
  change (Prim2SF infinity) with (S754_infinity false).
  destruct (Prim2SF a) as [s | [|] | | s m e]; cbn; intros Hx;
    try discriminate Hx; eauto.
Qed.

(** A finite number minus itself is [+0]. *)
Lemma float_sub_diag (a : float) : is_finite a = true -> (a - a)%float = 0%float.
Proof.
  intros Hf. apply Prim2SF_inj. rewrite FloatAxioms.sub_spec.
  change (Prim2SF 0) with (S754_zero false).
  destruct (finite_spec a Hf) as [[s ->] | (s & m & e & ->)].
  - destruct s; reflexivity.
  - cbn [SF64sub SFsub]. rewrite Z.sub_diag. reflexivity.
Qed.

(** A positive number divided by [+0] is [+Infinity]. *)
Lemma float_div_0_r (a : float) : (0 <? a)%float = true -> (a / 0)%float = infinity.
Proof.
  intros Ha. apply Prim2SF_inj. rewrite FloatAxioms.div_spec.
  change (Prim2SF 0) with (S754_zero false).
  destruct (pos_spec a Ha) as [-> | (m & e & ->)]; reflexivity.
Qed.

(** [+Infinity] times a positive number is [+Infinity]. *)
Lemma float_mul_infinity_l (p : float) :
  (0 <? p)%float = true -> (infinity * p)%float = infinity.
Proof.
  intros Hp. apply Prim2SF_inj. rewrite FloatAxioms.mul_spec.
  change (Prim2SF infinity) with (S754_infinity false).
  destruct (pos_spec p Hp) as [-> | (m & e & ->)]; reflexivity.
Qed.

(** [rne] in linear terms: the quotient, rounded up above a half and, on a
    tie, when the quotient is odd. *)
Lemma rne_cases (a n : Z) :
  0 <= a -> 0 <= n ->
  exists q r,
    a = 2 ^ n * q + r /\ 0 <= r < 2 ^ n /\ 0 <= q /\
    ((2 * r < 2 ^ n /\ rne a n = q) \/
     (2 * r = 2 ^ n /\ (rne a n = q \/ (q <> 0 /\ rne a n = q + 1))) \/
     (2 ^ n < 2 * r /\ rne a n = q + 1)).
Proof.
  intros Ha Hn.
  assert (Hp : 0 < 2 ^ n) by (apply Z.pow_pos_nonneg; lia).
  exists (a / 2 ^ n), (a mod 2 ^ n).
  split; [apply Z.div_mod; lia |].
  split; [apply Z.mod_pos_bound; lia |].
  split; [apply Z.div_pos; lia |].
  unfold rne. destruct (Z.compare_spec (2 * (a mod 2 ^ n)) (2 ^ n)) as [He | Hl | Hg].
  - right; left. split; [exact He |].
    destruct (Z.even (a / 2 ^ n)) eqn:Hev; [left; reflexivity | right].
    split; [| reflexivity]. intros H0. rewrite H0 in Hev. discriminate Hev.
  - left. split; [exact Hl | reflexivity].
  - right; right. split; [exact Hg | reflexivity].
Qed.

(** Comparing two rounded positive numbers: by exponent, then mantissa. *)
Lemma rounded_lt (ra ea rb eb : Z) :
  0 <= ra < 2 ^ 53 -> 0 < rb <= 2 ^ 53 -> ea <= 971 ->
  ea < eb \/ (ea = eb /\ ra < rb) ->
  SFltb (rounded false ra ea) (rounded false rb eb) = true.
Proof.
  intros Hra Hrb Hea Hlt. unfold rounded.
  destruct (Z.eqb_spec rb 0) as [? | _]; [lia |].
  destruct (Z.ltb_spec ra (2 ^ 53)) as [_ | ?]; [| lia].
  destruct (Z.leb_spec ea 971) as [_ | ?]; [| lia].
  assert (Hfin : forall mb eb', ea < eb' \/ (ea = eb' /\ ra < Z.pos mb) ->
            SFltb (if ra =? 0 then S754_zero false else S754_finite false (Z.to_pos ra) ea)
                  (S754_finite false mb eb') = true).
  { intros mb eb' H. destruct (Z.eqb_spec ra 0) as [| Hra0]; [reflexivity |].
    unfold SFltb. cbn [SFcompare].
    destruct (Z.compare_spec ea eb') as [Heq | Hl | Hg]; [| reflexivity | lia].
    destruct H as [? | [_ H]]; [lia |].
    replace (Pos.compare_cont Eq (Z.to_pos ra) mb) with Lt; [reflexivity |].
    symmetry. apply Pos.compare_lt_iff. lia. }
  assert (Hinf : SFltb (if ra =? 0 then S754_zero false else S754_finite false (Z.to_pos ra) ea)
                       (S754_infinity false) = true).
  { destruct (ra =? 0); reflexivity. }
  destruct (Z.ltb_spec rb (2 ^ 53)) as [Hb | Hb].
  - destruct (Z.leb_spec eb 971); [| exact Hinf].
    apply Hfin. rewrite Z2Pos.id by lia. exact Hlt.
  - destruct (Z.leb_spec (eb + 1) 971); [| exact Hinf].
    apply Hfin. left. lia.
Qed.

(** The digits of a product. *)
Lemma digits2_pos_mul (m c : positive) (dc : Z) :
  2 ^ (dc - 1) <= Z.pos c < 2 ^ dc -> 0 < dc ->
  Z.pos (digits2_pos (m * c)) = Z.pos (digits2_pos m) + dc - 1 \/
  Z.pos (digits2_pos (m * c)) = Z.pos (digits2_pos m) + dc.
Proof.
  intros [Hlo Hhi] Hdc. pose proof (digits2_pos_bounds m) as [Hmlo Hmhi].
  set (d := Z.pos (digits2_pos m)) in *.
  assert (Hd : 0 < d) by (unfold d; lia).
  assert (H1 : 2 ^ (d + dc - 2) <= Z.pos (m * c)).
  { replace (d + dc - 2) with ((d - 1) + (dc - 1)) by lia.
    rewrite Z.pow_add_r, Pos2Z.inj_mul by lia.
    apply Z.mul_le_mono_nonneg; try lia; apply Z.pow_nonneg; lia. }
  assert (H2 : Z.pos (m * c) < 2 ^ (d + dc)).
  { rewrite Z.pow_add_r, Pos2Z.inj_mul by lia.
    apply Z.mul_lt_mono_nonneg; lia. }
  destruct (Z_lt_le_dec (Z.pos (m * c)) (2 ^ (d + dc - 1))) as [Hlt | Hge].
  - left. apply digits2_pos_unique.
    replace (d + dc - 1 - 1) with (d + dc - 2) by lia. lia.
  - right. apply digits2_pos_unique. lia.
Qed.

(** A positive finite float times 0.5 is strictly below the same float times
    0.9, after rounding, down to the subnormals (where [2^-1074 * 0.5] rounds
    to 0 and [2^-1074 * 0.9] to [2^-1074]). *)
Lemma mul_half_lt_mul_nine_tenths (a : float) :
  (0 <? a)%float = true -> (a <? infinity)%float = true ->
  (a * 0.5 <? a * 0.9)%float = true.
Proof.
  intros H0 Hi. destruct (pos_finite_spec a H0 Hi) as (m & e & Ha).
  destruct (finite_valid a false m e Ha) as [Hc He].
  pose proof (digits2_pos_bounds m) as [Hmlo Hmhi].
  rewrite FloatAxioms.ltb_spec, !FloatAxioms.mul_spec, Ha.
  change (Prim2SF 0.5) with (S754_finite false 4503599627370496 (-53)).
  change (Prim2SF 0.9) with (S754_finite false 8106479329266893 (-53)).
  cbn [SF64mul SFmul xorb].
  set (d := Z.pos (digits2_pos m)) in *.
  assert (Hd : 0 < d) by (unfold d; lia).
  assert (Hcan : (d = 53 /\ -1074 <= e) \/ (e = -1074 /\ d <= 53)).
  { unfold fexp, emin, emax, prec in Hc. lia. }
  assert (Hm53 : Z.pos m < 2 ^ 53).
  { eapply Z.lt_le_trans; [exact Hmhi | apply Z.pow_le_mono_r; lia]. }
  assert (Hda : Z.pos (digits2_pos (m * 4503599627370496)) = d + 52).
  { apply digits2_pos_unique. rewrite Pos2Z.inj_mul.
    replace (d + 52 - 1) with ((d - 1) + 52) by lia.
    rewrite !Z.pow_add_r by lia. change (2 ^ 52) with 4503599627370496. lia. }
  assert (Hdb : Z.pos (digits2_pos (m * 8106479329266893)) = d + 52 \/
                Z.pos (digits2_pos (m * 8106479329266893)) = d + 53).
  { destruct (digits2_pos_mul m 8106479329266893 53) as [H | H];
      [change (2 ^ (53 - 1)) with 4503599627370496;
       change (2 ^ 53) with 9007199254740992; lia | lia | left; fold d in H; lia
       | right; fold d in H; lia]. }
  rewrite !round_exact_spec; rewrite ?Hda;
    [| destruct Hdb as [-> | ->]; unfold fexp, emin, emax, prec; lia
     | unfold fexp, emin, emax, prec; lia].
  set (ea := fexp prec emax (d + 52 + (e + -53))).
  set (eb := fexp prec emax (Z.pos (digits2_pos (m * 8106479329266893)) + (e + -53))).
  rewrite !Pos2Z.inj_mul.
  destruct (rne_cases (Z.pos m * 4503599627370496) (ea - (e + -53)))
    as (qa & ra & Hqa & Hra & Hqa0 & Hrna);
    [lia | unfold ea, fexp, emin, emax, prec; lia |].
  destruct (rne_cases (Z.pos m * 8106479329266893) (eb - (e + -53)))
    as (qb & rb & Hqb & Hrb & Hqb0 & Hrnb);
    [lia | destruct Hdb as [Hdb | Hdb]; unfold eb; rewrite Hdb;
           unfold fexp, emin, emax, prec; lia |].
  change (2 ^ 53) with 9007199254740992 in Hm53.
  destruct Hcan as [[Hd53 Hemin] | [He1074 Hd53]].
  - (* normal numbers *)
    destruct (Z.eq_dec e (-1074)) as [He1074 | Hne].
    + (* the least normal exponent: both products shift by 53 *)
      assert (Hea : ea = -1074) by (unfold ea, fexp, emin, emax, prec; lia).
      assert (Heb : eb = -1074)
        by (unfold eb; destruct Hdb as [-> | ->]; unfold fexp, emin, emax, prec; lia).
      rewrite Hea, Heb in *. subst e.
      change (2 ^ (-1074 - (-1074 + -53))) with 9007199254740992 in *.
      apply rounded_lt; change (2 ^ 53) with 9007199254740992; lia.
    + assert (Hea : ea = e - 1) by (unfold ea, fexp, emin, emax, prec; lia).
      rewrite Hea in *.
      replace (e - 1 - (e + -53)) with 52 in * by lia.
      change (2 ^ 52) with 4503599627370496 in *.
      destruct Hdb as [Hdb | Hdb].
      * assert (Heb : eb = e - 1)
          by (unfold eb; rewrite Hdb; unfold fexp, emin, emax, prec; lia).
        rewrite Heb in *.
        replace (e - 1 - (e + -53)) with 52 in * by lia.
        change (2 ^ 52) with 4503599627370496 in *.
        pose proof (digits2_pos_bounds (m * 8106479329266893)) as [_ Hhi].
        rewrite Hdb, Hd53, Pos2Z.inj_mul in Hhi.
        change (2 ^ (53 + 52)) with 40564819207303340847894502572032 in Hhi.
        apply rounded_lt; change (2 ^ 53) with 9007199254740992; lia.
      * assert (Heb : eb = e)
          by (unfold eb; rewrite Hdb; unfold fexp, emin, emax, prec; lia).
        rewrite Heb in *.
        replace (e - (e + -53)) with 53 in * by lia.
        change (2 ^ 53) with 9007199254740992 in *.
        pose proof (digits2_pos_bounds (m * 8106479329266893)) as [Hlo Hhi].
        rewrite Hdb, Hd53, Pos2Z.inj_mul in Hlo, Hhi.
        change (2 ^ (53 + 53 - 1)) with 40564819207303340847894502572032 in Hlo.
        change (2 ^ (53 + 53)) with 81129638414606681695789005144064 in Hhi.
        apply rounded_lt; change (2 ^ 53) with 9007199254740992; lia.
  - (* subnormal numbers: both products shift by 53 *)
    assert (Hea : ea = -1074) by (unfold ea, fexp, emin, emax, prec; lia).
    assert (Heb : eb = -1074)
      by (unfold eb; destruct Hdb as [-> | ->]; unfold fexp, emin, emax, prec; lia).
    rewrite Hea, Heb in *. subst e.
    change (2 ^ (-1074 - (-1074 + -53))) with 9007199254740992 in *.
    apply rounded_lt; change (2 ^ 53) with 9007199254740992; lia.
Qed.

Lemma float_eqb_0_sym (a : float) : (a =? 0)%float = true -> (0 =? a)%float = true.
Proof.
  rewrite !FloatAxioms.eqb_spec. change (Prim2SF 0) with (S754_zero false).
  destruct (Prim2SF a) as [[|] | [|] | | [|] m e]; cbn; intros Hz;
    first [discriminate Hz | reflexivity].
Qed.

Lemma same_value_zero_add_0_l (a : float) :
  JS.same_value_zero (0 + 1 * a)%float a.
Proof.
  rewrite float_mul_1_l. destruct (float_add_0_l a) as [-> | [-> ->]];
    [left; reflexivity | right; reflexivity].
Qed.

(** * The camera transform *)

Section CameraProperties.

Context {Geometry : Type}.
Variables W H : number.
Variable geo : GeoPath Geometry.

(** What [d3.zoomIdentity.translate(tx, ty).scale(k)] holds: [k], and [tx]
    and [ty] up to the sign of a zero. *)
Lemma identity_translate_scale (tx ty k0 : number) :
  let t := d3.scale (d3.translate d3.zoomIdentity tx ty) k0 in
  d3.k t = k0 /\
  JS.same_value_zero (d3.x t) tx /\ JS.same_value_zero (d3.y t) ty.
Proof.
  cbv zeta. unfold d3.scale, d3.translate, d3.zoomIdentity.
  destruct (tx =? 0)%float eqn:Hx; cbn [andb];
    [destruct (ty =? 0)%float eqn:Hy |];
    destruct (k0 =? 1)%float eqn:Hk; cbn [d3.k d3.x d3.y];
    (split; [first [symmetry; apply float_eqb_1_eq; exact Hk | apply float_mul_1_l] |]);
    split;
    first [ apply same_value_zero_add_0_l
          | right; apply float_eqb_0_sym; assumption ].
Qed.

(** The scale [transformFor] returns. *)
Lemma transformFor_k (f : ProvinceFeature Geometry) (padding : number)
  (x0 y0 x1 y1 : number) :
  path_bounds geo f = ((x0, y0), (x1, y1)) ->
  d3.k (transformFor W H geo f padding)
  = (JS.Math_min (W / (x1 - x0)) (H / (y1 - y0)) * padding)%float.
Proof.
  intros Hb. unfold transformFor. rewrite Hb.
  apply (identity_translate_scale _ _ _).
Qed.

(** C1: for every bounding box [[x0,y0],[x1,y1]], viewport [W] by [H] and
    padding, [transformFor] returns the scale [min(W/dx, H/dy) * padding] and
    the translation [W/2 - ((x0+x1)/2) * scale], [H/2 - ((y0+y1)/2) * scale].
    The code has no threshold on [dx] and [dy], so this holds for every box
    and in particular for those with [dx] and [dy] above an epsilon.  The
    scale is that number itself; a translation is that number up to the sign
    of a zero, which d3's [0 + 1 * tx] loses. *)
Theorem transformFor_formula (f : ProvinceFeature Geometry) (padding : number)
  (x0 y0 x1 y1 : number) :
  path_bounds geo f = ((x0, y0), (x1, y1)) ->
  let scale := (JS.Math_min (W / (x1 - x0)) (H / (y1 - y0)) * padding)%float in
  let t := transformFor W H geo f padding in
  d3.k t = scale /\
  JS.same_value_zero (d3.x t) (W / 2 - ((x0 + x1) / 2) * scale)%float /\
  JS.same_value_zero (d3.y t) (H / 2 - ((y0 + y1) / 2) * scale)%float.
Proof.
  intros Hb. cbv zeta. unfold transformFor. rewrite Hb.
  apply identity_translate_scale.
Qed.

(** C2, as the code has it: there is no clamp.  For a point-like bounding
    box (finite [x0 = x1] and [y0 = y1]) in a positive viewport and with a
    positive padding both quotients are [+Infinity], and so is the scale that
    [transformFor] returns; no error is raised. *)
Theorem transformFor_point_box (f : ProvinceFeature Geometry)
  (padding x0 y0 : number) :
  path_bounds geo f = ((x0, y0), (x0, y0)) ->
  is_finite x0 = true -> is_finite y0 = true ->
  (0 <? W)%float = true -> (0 <? H)%float = true ->
  (0 <? padding)%float = true ->
  d3.k (transformFor W H geo f padding) = infinity.
Proof.
  intros Hb Hx Hy HW HH Hp.
  rewrite (transformFor_k f padding x0 y0 x0 y0 Hb).
  rewrite (float_sub_diag x0 Hx), (float_sub_diag y0 Hy).
  rewrite (float_div_0_r W HW), (float_div_0_r H HH).
  change (JS.Math_min infinity infinity) with infinity.
  apply float_mul_infinity_l. exact Hp.
Qed.

(** C9, as the code has it: whenever [min(W/dx, H/dy)] is a positive finite
    number, the scale for padding 0.5 is strictly below the scale for padding
    0.9. *)
Theorem scale_decreases_with_padding (f : ProvinceFeature Geometry)
  (x0 y0 x1 y1 : number) :
  path_bounds geo f = ((x0, y0), (x1, y1)) ->
  let m := JS.Math_min (W / (x1 - x0))%float (H / (y1 - y0))%float in
  (0 <? m)%float = true -> (m <? infinity)%float = true ->
  (d3.k (transformFor W H geo f 0.5) <? d3.k (transformFor W H geo f 0.9))%float
  = true.
Proof.
  intros Hb m Hpos Hfin.
  rewrite (transformFor_k f 0.5%float x0 y0 x1 y1 Hb).
  rewrite (transformFor_k f 0.9%float x0 y0 x1 y1 Hb).
  apply mul_half_lt_mul_nine_tenths; assumption.
Qed.

End CameraProperties.

(** * The name index *)

Section IndexProperties.

Context {Geometry : Type}.
Implicit Types (f : ProvinceFeature Geometry)
  (features : list (ProvinceFeature Geometry)).

Lemma byName_last features f :
  byName (features ++ [f]) = byName_set (byName features) f.
Proof. unfold byName. rewrite fold_left_app. reflexivity. Qed.

Lemma byName_app features1 features2 :
  byName (features1 ++ features2)
  = fold_left byName_set features2 (byName features1).
Proof. unfold byName. apply fold_left_app. Qed.

(** Features that do not carry the name [n] leave the entry of [n] alone. *)
Lemma fold_byName_set_other features (m : gmap string (ProvinceFeature Geometry))
  (n : string) :
  (forall f, In f features -> properties_name f <> JS.str n) ->
  fold_left byName_set features m !! n = m !! n.
Proof.
  revert m. induction features as [| f features IH]; intros m Hother.
  - reflexivity.
  - cbn [fold_left]. rewrite IH by (intros g Hg; apply Hother; now right).
    unfold byName_set.
    destruct (properties_name f) as [| | b | x | | s] eqn:Hf; try reflexivity.
    apply lookup_insert_ne. intros ->.
    apply (Hother f); [now left | exact Hf].
Qed.

(** C4, as the code has it: the index maps [n] to a region only if that
    region is in the collection and its name attribute is the string [n];
    the test is [typeof n === "string"], so the empty string is a key like
    any other, and a missing or non-string name is never indexed. *)
Theorem byName_entry_has_string_name features (n : string) f :
  byName features !! n = Some f ->
  In f features /\ properties_name f = JS.str n.
Proof.
  revert n f. induction features as [| g features IH] using rev_ind;
    intros n f Hn.
  - unfold byName in Hn. cbn in Hn. rewrite lookup_empty in Hn.
    discriminate Hn.
  - rewrite byName_last in Hn. unfold byName_set in Hn.
    assert (Hold : byName features !! n = Some f ->
                   In f (features ++ [g]) /\ properties_name f = JS.str n).
    { intros Hf. destruct (IH n f Hf) as [Hin Hname].
      split; [apply in_or_app; now left | exact Hname]. }
    destruct (properties_name g) as [| | b | x | | s] eqn:Hg; try (now apply Hold).
    destruct (decide (s = n)) as [-> | Hne].
    + rewrite lookup_insert_eq in Hn. injection Hn as <-.
      split; [apply in_or_app; right; now left | exact Hg].
    + rewrite lookup_insert_ne in Hn by exact Hne. now apply Hold.
Qed.

(** C5: when two regions [A] and [B] carry the same name, [B] after [A] and
    no region after [B] carrying it, the index maps the name to [B]. *)
Theorem byName_last_wins (before between after : list (ProvinceFeature Geometry))
  (A B : ProvinceFeature Geometry) (n : string) :
  properties_name A = JS.str n ->
  properties_name B = JS.str n ->
  (forall f, In f after -> properties_name f <> JS.str n) ->
  byName (before ++ A :: between ++ B :: after) !! n = Some B.
Proof.
  intros HA HB Hafter.
  replace (before ++ A :: between ++ B :: after)
    with ((before ++ A :: between) ++ B :: after)
    by (rewrite <- app_assoc; reflexivity).
  rewrite byName_app. cbn [fold_left].
  rewrite fold_byName_set_other by exact Hafter.
  unfold byName_set at 1. rewrite HB. apply lookup_insert_eq.
Qed.

End IndexProperties.

(** * Highlight, focus and the tour *)

Section SceneProperties.

Context {Geometry : Type}.
Variable geo : GeoPath Geometry.
Variable features : list (ProvinceFeature Geometry).

Lemma is_highlighted_fill (b : bool) (p : ProvincePath Geometry) :
  is_highlighted
    {| datum := datum p; attr_d := attr_d p;
       attr_fill := if b then fill_highlight else fill_default |} = b.
Proof. destruct b; reflexivity. Qed.

(** C8, as the code has it: [highlight] compares names.  After
    [highlight(activeName)] the regions are the same, each is in the
    highlight fill if its name attribute is [activeName] and in the default
    fill otherwise, and so as many regions are highlighted as carry that
    name: exactly one when one region does. *)
Theorem highlight_marks_named (activeName : option string)
  (s : Scene Geometry) :
  map datum (provinces (highlight activeName s)) = map datum (provinces s) /\
  Forall
    (fun p =>
       attr_fill p =
       if JS.strict_eq_name (properties_name (datum p)) activeName
       then fill_highlight else fill_default)
    (provinces (highlight activeName s)) /\
  length (highlighted (highlight activeName s)) = length (named activeName s).
Proof.
  unfold highlighted, named, highlight. cbn [provinces].
  induction (provinces s) as [| p ps (IHd & IHf & IHn)].
  - repeat split. constructor.
  - cbn [map List.filter]. rewrite is_highlighted_fill.
    split; [cbn [datum]; f_equal; exact IHd |].
    split; [constructor; [reflexivity | exact IHf] |].
    destruct (JS.strict_eq_name (properties_name (datum p)) activeName);
      cbn [length]; [f_equal |]; exact IHn.
Qed.

(** C10: focusing a name that is not in the index returns the scene as it
    was: provinces, links, transform and timeline. *)
Theorem focus_unresolved_noop (name : string) (durationMs : number)
  (s : Scene Geometry) :
  byName features !! name = None ->
  focus geo features name durationMs s = s.
Proof. intros Hn. unfold focus. rewrite Hn. reflexivity. Qed.

Lemma focus_absent (name : string) (durationMs : number) (s : Scene Geometry) :
  ~ is_Some (byName features !! name) ->
  focus geo features name durationMs s = s.
Proof.
  intros Hn. unfold focus.
  destruct (byName features !! name) eqn:Hl; [| reflexivity].
  exfalso. apply Hn. eauto.
Qed.

(** C6, as the code has it: [focus] returns at once on a name that is not in
    the index, so a chain of awaited [focus] calls ends in the state of the
    chain over the names that resolve; the demo tour is guarded as a whole,
    and does nothing when either of its two names is missing. *)
Theorem focus_chain_skips_unresolved :
  (forall (steps : list (string * number)) (s : Scene Geometry),
     fold_left (fun s step => focus geo features (fst step) (snd step) s)
               steps s
     = fold_left (fun s step => focus geo features (fst step) (snd step) s)
         (List.filter
            (fun step => bool_decide (is_Some (byName features !! fst step)))
            steps)
         s) /\
  (forall s : Scene Geometry,
     byName features !! "江西省" = None \/ byName features !! "上海市" = None ->
     tour geo features s = s).
Proof.
  split.
  - induction steps as [| [name ms] steps IH]; intros s; [reflexivity |].
    cbn [fold_left List.filter fst snd].
    destruct (bool_decide_reflect (is_Some (byName features !! name)))
      as [Hsome | Hnone].
    + cbn [fold_left fst snd]. apply IH.
    + rewrite (focus_absent name ms s Hnone). apply IH.
  - intros s [Hn | Hn]; unfold tour; rewrite Hn;
      [| destruct (byName features !! "江西省")]; reflexivity.
Qed.

(** C7, as the code has it: the demo tour, the one tour of the code, sets
    the camera at once in its first step.  When both names resolve, the tour
    is its first frame followed by the delay, the link and the focus on
    [上海市]; at the first frame the map is highlighted by [江西省], the
    transform of the scene is already that of [江西省], and all that has
    happened to the camera is one attribute set, with no transition and no
    duration; the transform stays there through the delay, and the only
    transition of the tour is that of the second step. *)
Theorem tour_first_frame_sets_camera (s : Scene Geometry)
  (jiangxi shanghai : ProvinceFeature Geometry) :
  byName features !! "江西省" = Some jiangxi ->
  byName features !! "上海市" = Some shanghai ->
  let t1 := transformFor width height geo jiangxi default_padding in
  let t2 := transformFor width height geo shanghai default_padding in
  tour geo features s
  = focus geo features "上海市" 1600%float
      (drawLink geo jiangxi shanghai 1600%float
         (delay 600%float (tour_first_frame geo jiangxi s))) /\
  transform (tour_first_frame geo jiangxi s) = Some t1 /\
  timeline (tour_first_frame geo jiangxi s) = timeline s ++ [CameraSet t1] /\
  provinces (tour_first_frame geo jiangxi s)
  = provinces (highlight (Some "江西省") s) /\
  links (tour_first_frame geo jiangxi s) = links s /\
  transform
    (drawLink geo jiangxi shanghai 1600%float
       (delay 600%float (tour_first_frame geo jiangxi s))) = Some t1 /\
  timeline (tour geo features s)
  = timeline s ++
    [CameraSet t1; Delay 600%float; CameraTransition 1600%float t2].
Proof.
  intros Hj Hs t1 t2.
  assert (Htour : tour geo features s
                  = focus geo features "上海市" 1600%float
                      (drawLink geo jiangxi shanghai 1600%float
                         (delay 600%float (tour_first_frame geo jiangxi s)))).
  { unfold tour. rewrite Hj, Hs. reflexivity. }
  split; [exact Htour |].
  do 5 (split; [reflexivity |]).
  rewrite Htour. unfold focus. rewrite Hs.
  cbn [timeline highlight drawLink delay tour_first_frame set_transform].
  rewrite <- !app_assoc. reflexivity.
Qed.

End SceneProperties.

(** C3, as the code has it: on the empty collection the effect raises
    nothing of its own.  It completes as d3's [fitSize] does: if that
    returns, the result is the scene with no province, no link, no transform
    and an empty timeline, the tour having stopped at its guard. *)
Theorem mount_empty_collection {Geometry Exn Projection : Type}
  (fitSize : number * number -> list (ProvinceFeature Geometry) ->
             JS.completion Exn Projection)
  (geoPath : Projection -> GeoPath Geometry) :
  mount fitSize geoPath []
  = JS.bind (fitSize (width, height) [])
      (fun _ => JS.Return
         {| provinces := []; links := []; transform := None; timeline := [] |}).
Proof.
  unfold mount. destruct (fitSize (width, height) []) as [projection | e];
    cbn [JS.bind]; [| reflexivity].
  unfold tour, byName. cbn [fold_left]. rewrite !lookup_empty. reflexivity.
Qed.

(** * The code on the fixture map *)

Lemma transformFor_formula_witness :
  path_bounds Fixture.geo Fixture.jiangxi = ((560, 380), (620, 460))%float /\
  (let t :=
     transformFor width height Fixture.geo Fixture.jiangxi default_padding in
   d3.k t = 6.75%float /\
   JS.same_value_zero (d3.x t) (-3502.5)%float /\
   JS.same_value_zero (d3.y t) (-2535)%float).
Proof.
  split; [reflexivity |].
  exact (transformFor_formula width height Fixture.geo Fixture.jiangxi
           default_padding 560%float 380%float 620%float 460%float eq_refl).
Defined.

(** A point box is not clamped: the scale and the translation are infinite,
    where a width and a height of 1 would give 540; and for a segment the
    scale is 1080, where a width of 1 would give 864. *)
Lemma degenerate_box_is_not_clamped :
  is_finite
    (d3.k (transformFor width height Fixture.geo Fixture.dot default_padding))
  = false /\
  is_finite
    (d3.x (transformFor width height Fixture.geo Fixture.dot default_padding))
  = false /\
  (JS.Math_min (width / 1) (height / 1) * default_padding)%float = 540%float /\
  d3.k (transformFor width height Fixture.geo Fixture.segment default_padding)
  = 1080%float /\
  (JS.Math_min (width / 1) (height / 0.5) * default_padding)%float = 864%float.
Proof. repeat split; vm_compute; reflexivity. Qed.

Lemma transformFor_point_box_witness :
  path_bounds Fixture.geo Fixture.dot = ((100, 100), (100, 100))%float /\
  is_finite 100 = true /\
  (0 <? width)%float = true /\ (0 <? height)%float = true /\
  (0 <? default_padding)%float = true /\
  d3.k (transformFor width height Fixture.geo Fixture.dot default_padding)
  = infinity.
Proof.
  do 5 (split; [reflexivity |]).
  exact (transformFor_point_box width height Fixture.geo Fixture.dot
           default_padding 100%float 100%float
           eq_refl eq_refl eq_refl eq_refl eq_refl eq_refl).
Defined.

(** On the point box the scale is infinite for both paddings. *)
Lemma point_box_scale_does_not_decrease :
  (d3.k (transformFor width height Fixture.geo Fixture.dot 0.5)
   <? d3.k (transformFor width height Fixture.geo Fixture.dot 0.9))%float
  = false.
Proof. vm_compute. reflexivity. Qed.

Lemma scale_decreases_with_padding_witness :
  path_bounds Fixture.geo Fixture.jiangxi = ((560, 380), (620, 460))%float /\
  (0 <? JS.Math_min (width / (620 - 560)) (height / (460 - 380)))%float = true /\
  (JS.Math_min (width / (620 - 560)) (height / (460 - 380)) <? infinity)%float
  = true /\
  (d3.k (transformFor width height Fixture.geo Fixture.jiangxi 0.5)
   <? d3.k (transformFor width height Fixture.geo Fixture.jiangxi 0.9))%float
  = true.
Proof.
  do 3 (split; [reflexivity |]).
  exact (scale_decreases_with_padding width height Fixture.geo Fixture.jiangxi
           560%float 380%float 620%float 460%float eq_refl eq_refl eq_refl).
Defined.

(** The empty collection mounts, and gives the empty scene. *)
Lemma mount_empty_collection_returns :
  mount Fixture.fitSize Fixture.geoPath []
  = JS.Return
      {| provinces := []; links := []; transform := None; timeline := [] |}
  /\ mount Fixture.fitSize Fixture.geoPath []
     <> JS.Throw Fixture.EmptyInputError.
Proof. split; [reflexivity | discriminate]. Qed.

(** A region named by the empty string is indexed, under the empty string. *)
Lemma empty_name_is_indexed :
  properties_name Fixture.unnamed = JS.str "" /\
  byName [Fixture.jiangxi; Fixture.unnamed] !! "" = Some Fixture.unnamed.
Proof. split; [reflexivity | vm_compute; reflexivity]. Qed.

Lemma byName_entry_has_string_name_witness :
  byName [Fixture.unnamed; Fixture.numbered; Fixture.bare; Fixture.shanghai]
    !! "上海市" = Some Fixture.shanghai /\
  In Fixture.shanghai
    [Fixture.unnamed; Fixture.numbered; Fixture.bare; Fixture.shanghai] /\
  properties_name Fixture.shanghai = JS.str "上海市".
Proof.
  assert (Hn : byName [Fixture.unnamed; Fixture.numbered; Fixture.bare;
                       Fixture.shanghai] !! "上海市" = Some Fixture.shanghai)
    by (vm_compute; reflexivity).
  split; [exact Hn |].
  exact (byName_entry_has_string_name _ _ _ Hn).
Defined.

Lemma byName_last_wins_witness :
  properties_name Fixture.jiangxi = JS.str "江西省" /\
  properties_name Fixture.jiangxi' = JS.str "江西省" /\
  (forall f, In f [Fixture.numbered; Fixture.bare] ->
             properties_name f <> JS.str "江西省") /\
  byName ([Fixture.shanghai] ++ Fixture.jiangxi ::
          [Fixture.unnamed] ++ Fixture.jiangxi' ::
          [Fixture.numbered; Fixture.bare]) !! "江西省"
  = Some Fixture.jiangxi'.
Proof.
  assert (Hafter : forall f, In f [Fixture.numbered; Fixture.bare] ->
                             properties_name f <> JS.str "江西省").
  { intros f [<- | [<- | []]]; discriminate. }
  do 2 (split; [reflexivity |]). split; [exact Hafter |].
  exact (byName_last_wins [Fixture.shanghai] [Fixture.unnamed]
           [Fixture.numbered; Fixture.bare] Fixture.jiangxi Fixture.jiangxi'
           "江西省" eq_refl eq_refl Hafter).
Defined.

(** With [上海市] on the map and [江西省] missing, the tour does not go on to
    its second step: nothing is highlighted and the camera is never set. *)
Lemma tour_stops_when_a_name_is_missing :
  byName [Fixture.shanghai] !! "江西省" = None /\
  byName [Fixture.shanghai] !! "上海市" = Some Fixture.shanghai /\
  tour Fixture.geo [Fixture.shanghai]
    (initial_scene Fixture.geo [Fixture.shanghai])
  = initial_scene Fixture.geo [Fixture.shanghai] /\
  highlighted
    (tour Fixture.geo [Fixture.shanghai]
       (initial_scene Fixture.geo [Fixture.shanghai])) = [] /\
  transform
    (tour Fixture.geo [Fixture.shanghai]
       (initial_scene Fixture.geo [Fixture.shanghai])) = None.
Proof. repeat split; vm_compute; reflexivity. Qed.

(** A tour whose first step is a [focus] animates it, over the duration
    given; and the demo tour does not reach its first step when [上海市] is
    missing. *)
Lemma first_step_can_animate_or_not_run :
  timeline
    (focus Fixture.geo [Fixture.jiangxi; Fixture.shanghai] "江西省" 1200%float
       (initial_scene Fixture.geo [Fixture.jiangxi; Fixture.shanghai]))
  = [CameraTransition 1200%float
       (transformFor width height Fixture.geo Fixture.jiangxi
          default_padding)] /\
  byName [Fixture.jiangxi] !! "江西省" = Some Fixture.jiangxi /\
  transform
    (tour Fixture.geo [Fixture.jiangxi]
       (initial_scene Fixture.geo [Fixture.jiangxi])) = None /\
  timeline
    (tour Fixture.geo [Fixture.jiangxi]
       (initial_scene Fixture.geo [Fixture.jiangxi])) = [].
Proof. repeat split; vm_compute; reflexivity. Qed.

Lemma tour_first_frame_sets_camera_witness :
  byName [Fixture.jiangxi; Fixture.shanghai] !! "江西省"
  = Some Fixture.jiangxi /\
  byName [Fixture.jiangxi; Fixture.shanghai] !! "上海市"
  = Some Fixture.shanghai /\
  transform
    (tour_first_frame Fixture.geo Fixture.jiangxi
       (initial_scene Fixture.geo [Fixture.jiangxi; Fixture.shanghai]))
  = Some
      (transformFor width height Fixture.geo Fixture.jiangxi default_padding)
  /\
  timeline
    (tour_first_frame Fixture.geo Fixture.jiangxi
       (initial_scene Fixture.geo [Fixture.jiangxi; Fixture.shanghai]))
  = [CameraSet
       (transformFor width height Fixture.geo Fixture.jiangxi
          default_padding)].
Proof.
  assert (Hj : byName [Fixture.jiangxi; Fixture.shanghai] !! "江西省"
               = Some Fixture.jiangxi) by (vm_compute; reflexivity).
  assert (Hs : byName [Fixture.jiangxi; Fixture.shanghai] !! "上海市"
               = Some Fixture.shanghai) by (vm_compute; reflexivity).
  split; [exact Hj |]. split; [exact Hs |].
  pose proof (tour_first_frame_sets_camera Fixture.geo
                [Fixture.jiangxi; Fixture.shanghai]
                (initial_scene Fixture.geo
                   [Fixture.jiangxi; Fixture.shanghai])
                Fixture.jiangxi Fixture.shanghai Hj Hs)
    as (_ & Htransform & Htimeline & _).
  split; [exact Htransform | exact Htimeline].
Defined.

(** Two regions that share a name are both highlighted, and a name that no
    region carries, or [null], highlights none. *)
Lemma highlight_follows_the_name :
  length
    (highlighted
       (highlight (Some "江西省")
          (initial_scene Fixture.geo
             [Fixture.jiangxi; Fixture.jiangxi'; Fixture.shanghai])))
  = 2%nat /\
  length
    (highlighted
       (highlight (Some "Atlantis")
          (initial_scene Fixture.geo
             [Fixture.jiangxi; Fixture.jiangxi'; Fixture.shanghai])))
  = 0%nat /\
  length
    (highlighted
       (highlight None
          (initial_scene Fixture.geo
             [Fixture.jiangxi; Fixture.jiangxi'; Fixture.shanghai])))
  = 0%nat.
Proof. repeat split; vm_compute; reflexivity. Qed.

Lemma focus_unresolved_noop_witness :
  byName [Fixture.jiangxi; Fixture.shanghai] !! "Atlantis" = None /\
  focus Fixture.geo [Fixture.jiangxi; Fixture.shanghai] "Atlantis" 1200%float
    (initial_scene Fixture.geo [Fixture.jiangxi; Fixture.shanghai])
  = initial_scene Fixture.geo [Fixture.jiangxi; Fixture.shanghai].
Proof.
  assert (Hn : byName [Fixture.jiangxi; Fixture.shanghai] !! "Atlantis" = None)
    by (vm_compute; reflexivity).
  split; [exact Hn |].
  exact (focus_unresolved_noop Fixture.geo [Fixture.jiangxi; Fixture.shanghai]
           "Atlantis" 1200%float _ Hn).
Defined.

(** * Beyond the claims *)

Section TourProperties.

Context {Geometry : Type}.
Variable geo : GeoPath Geometry.
Variable features : list (ProvinceFeature Geometry).

(** A later [highlight] overrides an earlier one. *)
Lemma highlight_highlight (a b : option string) (s : Scene Geometry) :
  highlight b (highlight a s) = highlight b s.
Proof.
  unfold highlight. cbn [provinces links transform timeline]. f_equal.
  rewrite map_map. reflexivity.
Qed.

(** The end of the demo tour (the example of the specification): when both
    names resolve, the map is highlighted by the name [上海市], the camera is
    on the transform of that region, and the links layer has gained one line
    from the centroid of [江西省] to the centroid of [上海市], revealed over
    1600 ms, and its two end dots. *)
Theorem tour_end_state (s : Scene Geometry)
  (jiangxi shanghai : ProvinceFeature Geometry) :
  byName features !! "江西省" = Some jiangxi ->
  byName features !! "上海市" = Some shanghai ->
  provinces (tour geo features s) = provinces (highlight (Some "上海市") s) /\
  transform (tour geo features s)
  = Some (transformFor width height geo shanghai default_padding) /\
  links (tour geo features s)
  = links s ++
    [LinkLine (centroid geo jiangxi) (centroid geo shanghai) 1600%float;
     LinkDot (centroid geo jiangxi); LinkDot (centroid geo shanghai)].
Proof.
  intros Hj Hs. unfold tour. rewrite Hj, Hs. unfold focus. rewrite Hs.
  cbn [provinces transform links drawLink delay set_transform].
  repeat split.
  change (provinces (highlight (Some "上海市") (highlight (Some "江西省") s))
          = provinces (highlight (Some "上海市") s)).
  rewrite highlight_highlight. reflexivity.
Qed.

(** Every region whose name attribute is a string has that name as a key of
    the index. *)
Theorem byName_has_every_string_name (f : ProvinceFeature Geometry)
  (n : string) :
  In f features -> properties_name f = JS.str n ->
  is_Some (byName features !! n).
Proof.
  intros Hin Hname. apply in_split in Hin as (before & after & ->).
  rewrite byName_app. cbn [fold_left]. unfold byName_set at 2. rewrite Hname.
  generalize (byName before). clear before.
  induction after as [| g after IH] using rev_ind; intros m.
  - cbn [fold_left]. rewrite lookup_insert_eq. eauto.
  - rewrite fold_left_app. cbn [fold_left]. unfold byName_set at 1.
    destruct (properties_name g) as [| | b | x | | s']; try apply IH.
    destruct (decide (s' = n)) as [-> | Hne].
    + rewrite lookup_insert_eq. eauto.
    + rewrite lookup_insert_ne by exact Hne. apply IH.
Qed.

End TourProperties.

Lemma tour_end_state_witness :
  byName [Fixture.jiangxi; Fixture.shanghai] !! "江西省"
  = Some Fixture.jiangxi /\
  byName [Fixture.jiangxi; Fixture.shanghai] !! "上海市"
  = Some Fixture.shanghai /\
  map attr_fill
    (provinces
       (tour Fixture.geo [Fixture.jiangxi; Fixture.shanghai]
          (initial_scene Fixture.geo [Fixture.jiangxi; Fixture.shanghai])))
  = [fill_default; fill_highlight].
Proof.
  assert (Hj : byName [Fixture.jiangxi; Fixture.shanghai] !! "江西省"
               = Some Fixture.jiangxi) by (vm_compute; reflexivity).
  assert (Hs : byName [Fixture.jiangxi; Fixture.shanghai] !! "上海市"
               = Some Fixture.shanghai) by (vm_compute; reflexivity).
  split; [exact Hj |]. split; [exact Hs |].
  rewrite (proj1 (tour_end_state Fixture.geo
                    [Fixture.jiangxi; Fixture.shanghai]
                    (initial_scene Fixture.geo
                       [Fixture.jiangxi; Fixture.shanghai])
                    Fixture.jiangxi Fixture.shanghai Hj Hs)).
  reflexivity.
Defined.

Lemma byName_has_every_string_name_witness :
  In Fixture.unnamed [Fixture.jiangxi; Fixture.unnamed; Fixture.bare] /\
  properties_name Fixture.unnamed = JS.str "" /\
  is_Some (byName [Fixture.jiangxi; Fixture.unnamed; Fixture.bare] !! "").
Proof.
  assert (Hin : In Fixture.unnamed
                  [Fixture.jiangxi; Fixture.unnamed; Fixture.bare])
    by (right; left; reflexivity).
  split; [exact Hin |]. split; [reflexivity |].
  exact (byName_has_every_string_name
           [Fixture.jiangxi; Fixture.unnamed; Fixture.bare]
           Fixture.unnamed "" Hin eq_refl).
Defined.

(** * More on the index, focus and the tour *)

Section MoreSceneProperties.

Context {Geometry : Type}.
Variable geo : GeoPath Geometry.
Variable features : list (ProvinceFeature Geometry).

Implicit Types (s : Scene Geometry) (steps : list (string * number)).

(** A chain of awaited calls [await focus(name, durationMs)]. *)
Abbreviation focus_chain chain scene :=
  (fold_left (fun sc step => focus geo features (fst step) (snd step) sc)
             chain scene).

(** The index is a search from the end of the collection: [byName.get(n)] is
    the last region whose name attribute is the string [n], and [undefined]
    when there is none. *)
Theorem byName_lookup_last (n : string) :
  byName features !! n
  = last (List.filter
            (fun f => JS.strict_eq_name (properties_name f) (Some n))
            features).
Proof.
  induction features as [| g fs IH] using rev_ind; [reflexivity |].
  rewrite byName_last, List.filter_app. cbn [List.filter]. unfold byName_set.
  destruct (properties_name g) as [| | b | x | | s'];
    cbn [JS.strict_eq_name]; rewrite ?app_nil_r; try exact IH.
  destruct (String.eqb_spec s' n) as [-> | Hne].
  - rewrite lookup_insert_eq, last_snoc. reflexivity.
  - rewrite lookup_insert_ne by exact Hne. rewrite app_nil_r. exact IH.
Qed.

(** The provinces [highlight] gives depend on the provinces alone. *)
Lemma highlight_provinces_eq (a : option string) s s' :
  provinces s = provinces s' ->
  provinces (highlight a s) = provinces (highlight a s').
Proof. intros Hp. unfold highlight. cbn [provinces]. rewrite Hp. reflexivity. Qed.

(** [highlight] touches fills only. *)
Lemma highlight_keeps_paths (a : option string) s :
  map datum (provinces (highlight a s)) = map datum (provinces s) /\
  map attr_d (provinces (highlight a s)) = map attr_d (provinces s).
Proof.
  unfold highlight. cbn [provinces]. rewrite !map_map. split; reflexivity.
Qed.

Lemma focus_keeps_paths (name : string) (ms : number) s :
  map datum (provinces (focus geo features name ms s))
  = map datum (provinces s) /\
  map attr_d (provinces (focus geo features name ms s))
  = map attr_d (provinces s).
Proof.
  unfold focus. destruct (byName features !! name); [| split; reflexivity].
  cbn [provinces]. apply highlight_keeps_paths.
Qed.

Lemma focus_chain_keeps_paths steps s :
  map datum (provinces (focus_chain steps s)) = map datum (provinces s) /\
  map attr_d (provinces (focus_chain steps s)) = map attr_d (provinces s).
Proof.
  revert s. induction steps as [| [name ms] steps IH]; intros s;
    [split; reflexivity |].
  cbn [fold_left fst snd].
  destruct (IH (focus geo features name ms s)) as [-> ->].
  apply focus_keeps_paths.
Qed.

Lemma tour_keeps_paths s :
  map datum (provinces (tour geo features s)) = map datum (provinces s) /\
  map attr_d (provinces (tour geo features s)) = map attr_d (provinces s).
Proof.
  unfold tour.
  destruct (byName features !! "江西省") as [jiangxi |]; [| split; reflexivity].
  destruct (byName features !! "上海市") as [shanghai |]; [| split; reflexivity].
  destruct (focus_keeps_paths "上海市" 1600%float
              (drawLink geo jiangxi shanghai 1600%float
                 (delay 600%float
                    (set_transform
                       (transformFor width height geo jiangxi default_padding)
                       (highlight (Some "江西省") s))))) as [-> ->].
  cbn [provinces drawLink delay set_transform].
  apply highlight_keeps_paths.
Qed.

(** Nothing after step 6 adds, removes, reorders or reshapes a province:
    through any chain of [focus] calls and through the tour, the data bound to
    the paths and their outlines stay as they were; only fills change. *)
Theorem paths_are_kept :
  (forall steps s,
     map datum (provinces (focus_chain steps s)) = map datum (provinces s) /\
     map attr_d (provinces (focus_chain steps s)) = map attr_d (provinces s))
  /\
  (forall s,
     map datum (provinces (tour geo features s)) = map datum (provinces s) /\
     map attr_d (provinces (tour geo features s)) = map attr_d (provinces s)).
Proof.
  split; [apply focus_chain_keeps_paths | apply tour_keeps_paths].
Qed.

(** The camera events of a chain of [focus] calls: one transition for each
    step whose name resolves, in order, of that step's duration and to the
    transform of the region the index gives for the name; steps that do not
    resolve leave no trace. *)
Theorem focus_chain_timeline steps s :
  timeline (focus_chain steps s)
  = timeline s ++
    omap (fun step : string * number =>
            (fun f => CameraTransition (snd step)
                        (transformFor width height geo f default_padding))
            <$> byName features !! fst step)
         steps.
Proof.
  revert s. induction steps as [| [name ms] steps IH]; intros s.
  - cbn. rewrite app_nil_r. reflexivity.
  - cbn [fold_left fst snd omap list_omap]. rewrite IH. unfold focus.
    destruct (byName features !! name) as [f |]; cbn [fmap option_fmap option_map].
    + cbn [timeline highlight]. rewrite <- app_assoc. reflexivity.
    + reflexivity.
Qed.

Lemma focus_some (name : string) (ms : number) s
  (f : ProvinceFeature Geometry) :
  byName features !! name = Some f ->
  focus geo features name ms s
  = {| provinces := provinces (highlight (Some name) s);
       links := links s;
       transform := Some (transformFor width height geo f default_padding);
       timeline :=
         timeline s ++
         [CameraTransition ms
            (transformFor width height geo f default_padding)] |}.
Proof. intros Hf. unfold focus. rewrite Hf. reflexivity. Qed.

Lemma focus_none (name : string) (ms : number) s :
  byName features !! name = None -> focus geo features name ms s = s.
Proof. intros Hf. unfold focus. rewrite Hf. reflexivity. Qed.

(** Where a chain of [focus] calls ends: untouched if no step resolves, and
    otherwise with the map highlighted by the name of the last step that
    resolves and the camera on the transform of its region; links are never
    touched. *)
Theorem focus_chain_ends_on_last_resolved steps s :
  links (focus_chain steps s) = links s /\
  match last (omap (fun step : string * number =>
                      (fun f => (fst step, f)) <$> byName features !! fst step)
                   steps) with
  | None => focus_chain steps s = s
  | Some (name, f) =>
      provinces (focus_chain steps s) = provinces (highlight (Some name) s) /\
      transform (focus_chain steps s)
      = Some (transformFor width height geo f default_padding)
  end.
Proof.
  induction steps as [| [name ms] steps [IHl IH]] using rev_ind;
    [split; reflexivity |].
  rewrite fold_left_app, omap_app. cbn [fold_left fst snd omap list_omap].
  destruct (byName features !! name) as [f |] eqn:Hf;
    cbn [fmap option_fmap option_map].
  - rewrite last_snoc, (focus_some name ms _ f Hf).
    cbn [links provinces transform].
    split; [exact IHl |]. split; [| reflexivity].
    destruct (last _) as [[name' f'] |].
    + rewrite (highlight_provinces_eq (Some name) _ _ (proj1 IH)).
      rewrite highlight_highlight. reflexivity.
    + rewrite IH. reflexivity.
  - rewrite app_nil_r, (focus_none name ms _ Hf). split; [exact IHl | exact IH].
Qed.

(** [highlight(null)] after any [highlight] gives back the map as step 6 drew
    it, provided no region has the JSON value [null] for a name (such a
    region is what [highlight(null)] highlights). *)
Theorem highlight_null_restores (a : option string) :
  (forall f, In f features -> properties_name f <> JS.null) ->
  highlight None (highlight a (initial_scene geo features))
  = initial_scene geo features.
Proof.
  intros Hnull. rewrite highlight_highlight.
  unfold highlight, initial_scene. cbn [provinces links transform timeline].
  f_equal. rewrite map_map. apply map_ext_in. intros f Hf. cbn [datum attr_d].
  f_equal. specialize (Hnull f Hf).
  destruct (properties_name f); cbn [JS.strict_eq_name];
    first [reflexivity | contradiction].
Qed.

End MoreSceneProperties.

(** When d3's [fitSize] returns, the effect returns too, with one path for
    each feature of the collection, in the order of the collection and with
    the outline d3 gives it (the empty string for [null]): regions without a
    usable name are drawn like the others, and the tour does not disturb the
    map. *)
Theorem mount_draws_every_feature {Geometry Exn Projection : Type}
  (fitSize : number * number -> list (ProvinceFeature Geometry) ->
             JS.completion Exn Projection)
  (geoPath : Projection -> GeoPath Geometry)
  (china : list (ProvinceFeature Geometry)) (projection : Projection) :
  fitSize (width, height) china = JS.Return projection ->
  exists scene,
    mount fitSize geoPath china = JS.Return scene /\
    map datum (provinces scene) = china /\
    map attr_d (provinces scene)
    = map (fun f => default EmptyString (path (geoPath projection) f)) china.
Proof.
  intros Hfit. unfold mount. rewrite Hfit. cbn [JS.bind].
  eexists. split; [reflexivity |].
  destruct (tour_keeps_paths (geoPath projection) china
              (initial_scene (geoPath projection) china)) as [-> ->].
  unfold initial_scene. cbn [provinces]. rewrite !map_map. cbn [datum attr_d].
  split; [apply map_id | reflexivity].
Qed.

(** * More on the camera transform *)

Lemma is_nan_spec (a : float) :
  is_nan a = match Prim2SF a with S754_nan => true | _ => false end.
Proof.
  unfold is_nan. rewrite FloatAxioms.eqb_spec. unfold SFeqb.
  destruct (Prim2SF a) as [[|] | [|] | | [|] m e]; cbn [SFcompare negb];
    try reflexivity;
    rewrite Z.compare_refl, Pos.compare_cont_refl; reflexivity.
Qed.

(** [Math.min] drops an infinite argument. *)
Lemma Math_min_infinity_l (h : float) :
  is_nan h = false -> JS.Math_min infinity h = h.
Proof.
  intros Hn. unfold JS.Math_min. rewrite Hn.
  change (is_nan infinity) with false. cbn [orb].
  replace (infinity <? h)%float with false.
  - destruct (h <? infinity)%float; reflexivity.
  - rewrite FloatAxioms.ltb_spec. change (Prim2SF infinity) with (S754_infinity false).
    destruct (Prim2SF h) as [[|] | [|] | | [|] m e]; reflexivity.
Qed.

Lemma Math_min_infinity_r (h : float) :
  is_nan h = false -> JS.Math_min h infinity = h.
Proof.
  intros Hn. unfold JS.Math_min. rewrite Hn.
  change (is_nan infinity) with false. cbn [orb].
  destruct (h <? infinity)%float eqn:Hlt; [reflexivity |].
  assert (Hh : h = infinity).
  { apply Prim2SF_inj. rewrite is_nan_spec in Hn.
    rewrite FloatAxioms.ltb_spec in Hlt.
    change (Prim2SF infinity) with (S754_infinity false) in *.
    destruct (Prim2SF h) as [[|] | [|] | | [|] m e];
      first [reflexivity | discriminate Hn | discriminate Hlt]. }
  rewrite Hh. reflexivity.
Qed.

Lemma float_div_neg_infinity (a : float) :
  (0 <? a)%float = true -> (a <? infinity)%float = true ->
  (a / neg_infinity)%float = (-0)%float.
Proof.
  intros H0 Hi. destruct (pos_finite_spec a H0 Hi) as (m & e & Ha).
  apply Prim2SF_inj. rewrite FloatAxioms.div_spec, Ha. reflexivity.
Qed.

Lemma float_mul_neg_zero_l (p : float) :
  (0 <? p)%float = true -> (p <? infinity)%float = true ->
  (-0 * p)%float = (-0)%float.
Proof.
  intros H0 Hi. destruct (pos_finite_spec p H0 Hi) as (m & e & Hp).
  apply Prim2SF_inj. rewrite FloatAxioms.mul_spec, Hp. reflexivity.
Qed.

Lemma float_sub_nan_r (a : float) : (a - nan)%float = nan.
Proof.
  apply Prim2SF_inj. rewrite FloatAxioms.sub_spec.
  change (Prim2SF nan) with S754_nan.
  destruct (Prim2SF a) as [[|] | [|] | | [|] m e]; reflexivity.
Qed.

Section MoreCameraProperties.

Context {Geometry : Type}.
Variables W H : number.
Variable geo : GeoPath Geometry.

(** A box with no width is framed by its height alone, and a box with no
    height by its width: the quotient by zero is [+Infinity], and [Math.min]
    drops it.  (The other quotient must be a number; it is [NaN] only for
    [0 / 0] and the like.) *)
Theorem transformFor_flat_box (f : ProvinceFeature Geometry)
  (padding x0 y0 x1 y1 : number) :
  (path_bounds geo f = ((x0, y0), (x0, y1)) ->
   is_finite x0 = true -> (0 <? W)%float = true ->
   is_nan (H / (y1 - y0))%float = false ->
   d3.k (transformFor W H geo f padding) = (H / (y1 - y0) * padding)%float)
  /\
  (path_bounds geo f = ((x0, y0), (x1, y0)) ->
   is_finite y0 = true -> (0 <? H)%float = true ->
   is_nan (W / (x1 - x0))%float = false ->
   d3.k (transformFor W H geo f padding) = (W / (x1 - x0) * padding)%float).
Proof.
  split; intros Hb Hfin Hpos Hnan;
    rewrite (transformFor_k W H geo f padding _ _ _ _ Hb);
    rewrite (float_sub_diag _ Hfin), (float_div_0_r _ Hpos).
  - rewrite (Math_min_infinity_l _ Hnan). reflexivity.
  - rewrite (Math_min_infinity_r _ Hnan). reflexivity.
Qed.

(** For the empty box [[∞, ∞], [-∞, -∞]], which is what d3's [path.bounds]
    gives for a geometry without a point, the transform is not a number: in a
    positive finite viewport and with a positive finite padding the scale is
    [-0] and both translations are [NaN]. *)
Theorem transformFor_empty_box (f : ProvinceFeature Geometry)
  (padding : number) :
  path_bounds geo f = ((infinity, infinity), (neg_infinity, neg_infinity)) ->
  (0 <? W)%float = true -> (W <? infinity)%float = true ->
  (0 <? H)%float = true -> (H <? infinity)%float = true ->
  (0 <? padding)%float = true -> (padding <? infinity)%float = true ->
  transformFor W H geo f padding
  = {| d3.k := (-0)%float; d3.x := nan; d3.y := nan |}.
Proof.
  intros Hb HW HWf HH HHf Hp Hpf. unfold transformFor. rewrite Hb.
  change (neg_infinity - infinity)%float with neg_infinity.
  rewrite (float_div_neg_infinity W HW HWf), (float_div_neg_infinity H HH HHf).
  change (JS.Math_min (-0)%float (-0)%float) with (-0)%float.
  rewrite (float_mul_neg_zero_l padding Hp Hpf).
  change ((infinity + neg_infinity) / 2 * -0)%float with nan.
  rewrite !float_sub_nan_r. reflexivity.
Qed.

End MoreCameraProperties.

(** ** The scale of a box that has a width and a height *)

Lemma shr_m_iter (m : Z) (r s : bool) (n : nat) :
  0 <= m ->
  shr_m (Nat.iter n shr_1 {| shr_m := m; shr_r := r; shr_s := s |})
  = m / 2 ^ Z.of_nat n.
Proof.
  intros Hm. induction n as [| n IH].
  - cbn. rewrite Z.div_1_r. reflexivity.
  - rewrite Nat.iter_succ.
    assert (Hpow : 0 < 2 ^ Z.of_nat n) by (apply Z.pow_pos_nonneg; lia).
    destruct (shr_1_m (Nat.iter n shr_1 {| shr_m := m; shr_r := r; shr_s := s |}))
      as (-> & _); [rewrite IH; apply Z.div_pos; lia |].
    rewrite IH, Nat2Z.inj_succ, Z.pow_succ_r, Z.div_div by lia.
    f_equal. lia.
Qed.

Lemma round_nearest_even_bounds (m : Z) (l : location) :
  m <= round_nearest_even m l <= m + 1.
Proof.
  destruct l as [| []]; cbn [round_nearest_even];
    try destruct (Z.even m); lia.
Qed.

(** Shifting a positive mantissa at an exponent of the format to the
    exponent of its magnitude leaves it positive. *)
Lemma shr_fexp_pos (m e : Z) (l : location) :
  0 < m -> -1074 <= e ->
  0 < shr_m (fst (shr_fexp prec emax m e l)) /\
  -1074 <= snd (shr_fexp prec emax m e l).
Proof.
  intros Hm He. destruct m as [| p | p]; try lia.
  unfold shr_fexp. cbn [Zdigits2].
  assert (Hrec : shr_m (shr_record_of_loc (Z.pos p) l) = Z.pos p)
    by (destruct l as [| []]; reflexivity).
  pose proof (digits2_pos_bounds p) as [Hlo _].
  destruct (fexp prec emax (Z.pos (digits2_pos p) + e) - e) as [| n | n] eqn:Hn;
    cbn [shr fst snd]; try (rewrite Hrec; lia).
  assert (Hd : Z.pos n = Z.pos (digits2_pos p) - 53)
    by (unfold fexp, emin, emax, prec in Hn; lia).
  split; [| lia].
  rewrite iter_pos_nat.
  destruct (shr_record_of_loc (Z.pos p) l) as [m0 r0 s0] eqn:Hl.
  cbn [shr_m] in Hrec. subst m0.
  rewrite shr_m_iter, positive_nat_Z by lia.
  apply Z.lt_le_trans with (2 ^ 52); [reflexivity |].
  apply Z.div_le_lower_bound; [apply Z.pow_pos_nonneg; lia |].
  rewrite <- Z.pow_add_r by lia.
  replace (Z.pos n + 52) with (Z.pos (digits2_pos p) - 1) by lia. exact Hlo.
Qed.

(** Rounding a positive mantissa at an exponent of the format gives a
    positive number, finite or infinite: never zero. *)
Lemma binary_round_aux_pos (m e : Z) (l : location) :
  0 < m -> -1074 <= e ->
  binary_round_aux prec emax false m e l = S754_infinity false \/
  exists m' e', binary_round_aux prec emax false m e l = S754_finite false m' e'.
Proof.
  intros Hm He. unfold binary_round_aux.
  destruct (shr_fexp_pos m e l Hm He) as [H1 H1e].
  destruct (shr_fexp prec emax m e l) as [mrs1 e1]. cbn [fst snd] in H1, H1e.
  pose proof (round_nearest_even_bounds (shr_m mrs1) (loc_of_shr_record mrs1))
    as Hr.
  destruct (shr_fexp_pos (round_nearest_even (shr_m mrs1) (loc_of_shr_record mrs1))
              e1 loc_Exact) as [H2 _]; [lia | lia |].
  destruct (shr_fexp prec emax _ e1 loc_Exact) as [mrs2 e2]. cbn [fst] in H2.
  destruct (shr_m mrs2) as [| m2 | m2]; try lia.
  destruct (e2 <=? emax - prec); eauto.
Qed.

(** The result of rounding has the sign it was given. *)
Lemma binary_round_aux_sign (m e : Z) (l : location) :
  match binary_round_aux prec emax false m e l with
  | S754_zero s | S754_infinity s | S754_finite s _ _ => s = false
  | S754_nan => True
  end.
Proof.
  unfold binary_round_aux.
  destruct (shr_fexp prec emax m e l) as [mrs1 e1].
  destruct (shr_fexp prec emax _ e1 loc_Exact) as [mrs2 e2].
  destruct (shr_m mrs2); [reflexivity | | exact I].
  destruct (e2 <=? emax - prec); reflexivity.
Qed.

Lemma pos_of_spec (a : float) :
  Prim2SF a = S754_infinity false \/
  (exists m e, Prim2SF a = S754_finite false m e) ->
  (0 <? a)%float = true.
Proof.
  intros Ha. rewrite FloatAxioms.ltb_spec.
  change (Prim2SF 0) with (S754_zero false).
  destruct Ha as [-> | (m & e & ->)]; reflexivity.
Qed.

(** In binary64, a finite number that is at least 1 divided by a positive
    finite number is positive: the quotient does not underflow to zero. *)
Lemma float_div_pos (a b : float) :
  (1 <=? a)%float = true -> (a <? infinity)%float = true ->
  (0 <? b)%float = true -> (b <? infinity)%float = true ->
  (0 <? a / b)%float = true.
Proof.
  intros H1 Hai Hb Hbi.
  destruct (pos_finite_spec b Hb Hbi) as (m2 & e2 & Hb2).
  destruct (finite_valid b false m2 e2 Hb2) as [Hc2 He2].
  pose proof (digits2_pos_bounds m2) as [_ Hm2].
  rewrite FloatAxioms.leb_spec in H1. rewrite FloatAxioms.ltb_spec in Hai.
  change (Prim2SF 1) with (S754_finite false 4503599627370496 (-52)) in H1.
  change (Prim2SF infinity) with (S754_infinity false) in Hai.
  destruct (Prim2SF a) as [[|] | [|] | | [|] m1 e1] eqn:Ha;
    try discriminate H1; try discriminate Hai.
  assert (He1 : -52 <= e1).
  { unfold SFleb in H1. cbn [SFcompare] in H1.
    destruct (Z.compare_spec (-52) e1); [lia | lia | discriminate H1]. }
  destruct (finite_valid a false m1 e1 Ha) as [Hc1 _].
  pose proof (digits2_pos_bounds m1) as [Hm1 _].
  assert (Hd1 : Z.pos (digits2_pos m1) = 53)
    by (unfold fexp, emin, emax, prec in Hc1; lia).
  rewrite Hd1 in Hm1.
  assert (Hd2 : 0 < Z.pos (digits2_pos m2) <= 53)
    by (unfold fexp, emin, emax, prec in Hc2; lia).
  apply pos_of_spec. rewrite FloatAxioms.div_spec, Ha, Hb2.
  cbn [SF64div SFdiv xorb]. unfold SFdiv_core_binary. cbn [Zdigits2].
  rewrite Hd1.
  set (d2 := Z.pos (digits2_pos m2)) in *.
  set (e' := Z.min (fexp prec emax (53 + e1 - (d2 + e2))) (e1 - e2)).
  assert (Hs : e1 - e2 - e' = Z.min d2 (e1 - e2 + 1074) /\ -1074 <= e').
  { unfold e', fexp, emin, emax, prec. lia. }
  destruct Hs as [Hs He'].
  destruct (e1 - e2 - e') as [| s | s] eqn:Hse; try lia.
  rewrite Z.shiftl_mul_pow2 by lia.
  assert (Hge : Z.pos m2 <= Z.pos m1 * 2 ^ Z.pos s).
  { apply Z.le_trans with (2 ^ 52 * 2 ^ Z.pos s); [| apply Z.mul_le_mono_nonneg_r;
      [apply Z.pow_nonneg; lia | exact Hm1]].
    rewrite <- Z.pow_add_r by lia.
    apply Z.le_trans with (2 ^ d2); [lia | apply Z.pow_le_mono_r; lia]. }
  assert (Hq : 0 < Z.pos m1 * 2 ^ Z.pos s / Z.pos m2).
  { apply Z.div_str_pos. lia. }
  unfold Z.div in Hq.
  destruct (Z.div_eucl (Z.pos m1 * 2 ^ Z.pos s) (Z.pos m2)) as [q r].
  cbn [fst] in Hq. apply binary_round_aux_pos; assumption.
Qed.

Lemma Math_min_pos (a b : float) :
  (0 <? a)%float = true -> (0 <? b)%float = true ->
  (0 <? JS.Math_min a b)%float = true.
Proof.
  intros Ha Hb. unfold JS.Math_min.
  assert (Hna : is_nan a = false)
    by (rewrite is_nan_spec; destruct (pos_spec a Ha) as [-> | (m & e & ->)];
        reflexivity).
  assert (Hnb : is_nan b = false)
    by (rewrite is_nan_spec; destruct (pos_spec b Hb) as [-> | (m & e & ->)];
        reflexivity).
  rewrite Hna, Hnb. cbn [orb].
  destruct (a <? b)%float; [exact Ha |].
  destruct (b <? a)%float; [exact Hb |].
  destruct (get_sign a); assumption.
Qed.

(** A positive number times 0.9 is positive: the product does not underflow
    to zero. *)
Lemma float_mul_nine_tenths_pos (a : float) :
  (0 <? a)%float = true -> (0 <? a * 0.9)%float = true.
Proof.
  intros Ha. destruct (a <? infinity)%float eqn:Hfin.
  - pose proof (mul_half_lt_mul_nine_tenths a Ha Hfin) as Hlt.
    destruct (pos_finite_spec a Ha Hfin) as (m & e & Hm).
    rewrite FloatAxioms.ltb_spec in Hlt. rewrite FloatAxioms.ltb_spec.
    change (Prim2SF 0) with (S754_zero false).
    pose proof (binary_round_aux_sign
                  (Z.pos (m * 4503599627370496)) (e + -53) loc_Exact) as Hsign.
    rewrite (FloatAxioms.mul_spec a 0.5), Hm in Hlt.
    change (Prim2SF 0.5) with (S754_finite false 4503599627370496 (-53)) in Hlt.
    cbn [SF64mul SFmul xorb] in Hlt.
    destruct (binary_round_aux prec emax false
                (Z.pos (m * 4503599627370496)) (e + -53) loc_Exact)
      as [s | s | | s m' e']; try subst s;
      destruct (Prim2SF (a * 0.9)) as [[|] | [|] | | [|] mb eb];
      first [reflexivity | discriminate Hlt].
  - assert (Hinf : a = infinity).
    { apply Prim2SF_inj. rewrite FloatAxioms.ltb_spec in Hfin.
      change (Prim2SF infinity) with (S754_infinity false) in *.
      destruct (pos_spec a Ha) as [-> | (m & e & Hm)]; [reflexivity |].
      rewrite Hm in Hfin. discriminate Hfin. }
    rewrite Hinf. reflexivity.
Qed.

Section ScalePositive.

Context {Geometry : Type}.
Variables W H : number.
Variable geo : GeoPath Geometry.

(** In a finite viewport of at least 1 by 1, as the 960 by 600 of the code
    is, a bounding box with a positive finite width and height is given a
    positive scale by the default padding: not zero, not negative and not
    [NaN] (it is [+Infinity] when both sizes are small enough for the
    quotients to overflow). *)
Theorem transformFor_scale_positive (f : ProvinceFeature Geometry)
  (x0 y0 x1 y1 : number) :
  path_bounds geo f = ((x0, y0), (x1, y1)) ->
  (1 <=? W)%float = true -> (W <? infinity)%float = true ->
  (1 <=? H)%float = true -> (H <? infinity)%float = true ->
  (0 <? x1 - x0)%float = true -> (x1 - x0 <? infinity)%float = true ->
  (0 <? y1 - y0)%float = true -> (y1 - y0 <? infinity)%float = true ->
  (0 <? d3.k (transformFor W H geo f default_padding))%float = true.
Proof.
  intros Hb HW HWf HH HHf Hdx Hdxf Hdy Hdyf.
  rewrite (transformFor_k W H geo f default_padding x0 y0 x1 y1 Hb).
  apply float_mul_nine_tenths_pos, Math_min_pos; apply float_div_pos; assumption.
Qed.

End ScalePositive.

(** ** The target of a focus is highlighted *)

Section FocusTarget.

Context {Geometry : Type}.
Variable geo : GeoPath Geometry.
Variable features : list (ProvinceFeature Geometry).

Lemma byName_entry (n : string) (f : ProvinceFeature Geometry) :
  byName features !! n = Some f ->
  In f features /\ properties_name f = JS.str n.
Proof.
  revert f. induction features as [| g fs IH] using rev_ind; intros f Hf.
  - discriminate Hf.
  - rewrite byName_last in Hf. unfold byName_set in Hf.
    assert (Hold : byName fs !! n = Some f ->
                   In f (fs ++ [g]) /\ properties_name f = JS.str n).
    { intros Hfs. destruct (IH f Hfs) as [Hin Hname].
      split; [apply in_or_app; left; exact Hin | exact Hname]. }
    destruct (properties_name g) as [| | b | x | | s'] eqn:Hg;
      try (apply Hold; exact Hf).
    destruct (decide (s' = n)) as [-> | Hne].
    + rewrite lookup_insert_eq in Hf. injection Hf as <-.
      split; [apply in_or_app; right; left; reflexivity | exact Hg].
    + rewrite lookup_insert_ne in Hf by exact Hne. apply Hold. exact Hf.
Qed.

(** On a scene that draws the collection, a [focus] that resolves leaves the
    path of its target in the highlight fill: the region the camera moves to
    is among the highlighted ones, so at least one region is highlighted. *)
Theorem focus_highlights_target (name : string) (durationMs : number)
  (s : Scene Geometry) (f : ProvinceFeature Geometry) :
  map datum (provinces s) = features ->
  byName features !! name = Some f ->
  exists p,
    In p (provinces (focus geo features name durationMs s)) /\
    datum p = f /\ attr_fill p = fill_highlight.
Proof.
  intros Hs Hf. destruct (byName_entry name f Hf) as [Hin Hname].
  rewrite <- Hs in Hin. apply in_map_iff in Hin as (p & Hp & Hin).
  exists {| datum := datum p; attr_d := attr_d p; attr_fill := fill_highlight |}.
  split; [| split; [exact Hp | reflexivity]].
  unfold focus. rewrite Hf. cbn [provinces highlight].
  apply in_map_iff. exists p. split; [| exact Hin].
  rewrite Hp, Hname. cbn [JS.strict_eq_name]. rewrite String.eqb_refl.
  reflexivity.
Qed.

End FocusTarget.

(** * The added properties on the fixture map *)

Lemma highlight_null_restores_witness :
  (forall f, In f [Fixture.jiangxi; Fixture.unnamed; Fixture.bare] ->
             properties_name f <> JS.null) /\
  highlight None
    (highlight (Some "江西省")
       (initial_scene Fixture.geo
          [Fixture.jiangxi; Fixture.unnamed; Fixture.bare]))
  = initial_scene Fixture.geo [Fixture.jiangxi; Fixture.unnamed; Fixture.bare].
Proof.
  assert (Hnull : forall f,
             In f [Fixture.jiangxi; Fixture.unnamed; Fixture.bare] ->
             properties_name f <> JS.null).
  { intros f [<- | [<- | [<- | []]]]; discriminate. }
  split; [exact Hnull |].
  exact (highlight_null_restores Fixture.geo
           [Fixture.jiangxi; Fixture.unnamed; Fixture.bare]
           (Some "江西省") Hnull).
Defined.

Lemma mount_draws_every_feature_witness :
  Fixture.fitSize (width, height)
    [Fixture.jiangxi; Fixture.bare; Fixture.shanghai] = JS.Return tt /\
  exists scene,
    mount Fixture.fitSize Fixture.geoPath
      [Fixture.jiangxi; Fixture.bare; Fixture.shanghai] = JS.Return scene /\
    map datum (provinces scene)
    = [Fixture.jiangxi; Fixture.bare; Fixture.shanghai] /\
    map attr_d (provinces scene)
    = map (fun f => default EmptyString (path (Fixture.geoPath tt) f))
        [Fixture.jiangxi; Fixture.bare; Fixture.shanghai].
Proof.
  split; [reflexivity |].
  exact (mount_draws_every_feature Fixture.fitSize Fixture.geoPath
           [Fixture.jiangxi; Fixture.bare; Fixture.shanghai] tt eq_refl).
Defined.

Lemma transformFor_flat_box_witness :
  path_bounds Fixture.geo Fixture.segment = ((100, 100), (100, 100.5))%float /\
  is_finite 100 = true /\ (0 <? width)%float = true /\
  is_nan (height / (100.5 - 100))%float = false /\
  d3.k (transformFor width height Fixture.geo Fixture.segment default_padding)
  = (height / (100.5 - 100) * default_padding)%float.
Proof.
  do 4 (split; [reflexivity |]).
  exact (proj1 (transformFor_flat_box width height Fixture.geo Fixture.segment
                  default_padding 100%float 100%float 100%float 100.5%float)
           eq_refl eq_refl eq_refl eq_refl).
Defined.

Lemma transformFor_empty_box_witness :
  path_bounds Fixture.geo Fixture.hollow
  = ((infinity, infinity), (neg_infinity, neg_infinity)) /\
  (0 <? width)%float = true /\ (width <? infinity)%float = true /\
  (0 <? height)%float = true /\ (height <? infinity)%float = true /\
  (0 <? default_padding)%float = true /\
  (default_padding <? infinity)%float = true /\
  transformFor width height Fixture.geo Fixture.hollow default_padding
  = {| d3.k := (-0)%float; d3.x := nan; d3.y := nan |}.
Proof.
  do 7 (split; [reflexivity |]).
  exact (transformFor_empty_box width height Fixture.geo Fixture.hollow
           default_padding eq_refl eq_refl eq_refl eq_refl eq_refl eq_refl
           eq_refl).
Defined.

Lemma transformFor_scale_positive_witness :
  path_bounds Fixture.geo Fixture.jiangxi = ((560, 380), (620, 460))%float /\
  (1 <=? width)%float = true /\ (width <? infinity)%float = true /\
  (1 <=? height)%float = true /\ (height <? infinity)%float = true /\
  (0 <? 620 - 560)%float = true /\ (620 - 560 <? infinity)%float = true /\
  (0 <? 460 - 380)%float = true /\ (460 - 380 <? infinity)%float = true /\
  (0 <? d3.k (transformFor width height Fixture.geo Fixture.jiangxi
                default_padding))%float = true.
Proof.
  do 9 (split; [reflexivity |]).
  exact (transformFor_scale_positive width height Fixture.geo Fixture.jiangxi
           560%float 380%float 620%float 460%float
           eq_refl eq_refl eq_refl eq_refl eq_refl eq_refl eq_refl eq_refl
           eq_refl).
Defined.

Lemma focus_highlights_target_witness :
  map datum
    (provinces
       (initial_scene Fixture.geo
          [Fixture.jiangxi; Fixture.jiangxi'; Fixture.shanghai]))
  = [Fixture.jiangxi; Fixture.jiangxi'; Fixture.shanghai] /\
  byName [Fixture.jiangxi; Fixture.jiangxi'; Fixture.shanghai] !! "江西省"
  = Some Fixture.jiangxi' /\
  exists p,
    In p (provinces
            (focus Fixture.geo
               [Fixture.jiangxi; Fixture.jiangxi'; Fixture.shanghai]
               "江西省" 1200%float
               (initial_scene Fixture.geo
                  [Fixture.jiangxi; Fixture.jiangxi'; Fixture.shanghai]))) /\
    datum p = Fixture.jiangxi' /\ attr_fill p = fill_highlight.
Proof.
  assert (Hf : byName [Fixture.jiangxi; Fixture.jiangxi'; Fixture.shanghai]
                 !! "江西省" = Some Fixture.jiangxi')
    by (vm_compute; reflexivity).
  split; [reflexivity |]. split; [exact Hf |].
  exact (focus_highlights_target Fixture.geo
           [Fixture.jiangxi; Fixture.jiangxi'; Fixture.shanghai]
           "江西省" 1200%float
           (initial_scene Fixture.geo
              [Fixture.jiangxi; Fixture.jiangxi'; Fixture.shanghai])
           Fixture.jiangxi' eq_refl Hf).
Defined.
